(** * seller-apis: stock and price reconciliation for two marketplaces

    A shallow embedding of [seller.py] (the first marketplace) and
    [market.py] (the second one), and the proofs of the properties their
    specification states about the price parser, the batcher, the two
    reconcilers and the orchestration.

    Conventions of the embedding.
    - Python text is a [string], the sequence of its UTF-8 bytes.  Equality
      of texts, the search for ["."] and the removal of everything but the
      ASCII digits act on bytes exactly as they act on characters, since
      every byte of a character outside ASCII is above 127.
    - A cell of the feed is a [pyval]: a text, an integer or [None] (the
      value of [dict.get] on a missing key).  Floating point cells are
      outside the model.  The offer ids of a catalog are texts.
    - A Python list that is mutated through an alias (the catalog list
      [offer_ids]) lives in a heap of lists and is passed as a location.
      Lists that are only read or only local are plain Rocq lists.
    - A function that can raise returns an [outcome]; code with effects
      runs in the monad [M] over a world made of the heap and the log of
      the requests sent and the messages printed.
    - The answers of the marketplaces, the feed, the clock and the value of
      [int] on text outside ASCII are parameters. *)

From Stdlib Require Import ZArith Lia List Ascii String Permutation.
From Stdlib Require Import DecimalString DecimalPos DecimalZ.
From stdpp Require Import gmap strings list.

Open Scope string_scope.
Open Scope Z_scope.
Open Scope list_scope.

(** ** Python values, exceptions and outcomes *)

Inductive pyval : Type :=
  | PyNone
  | PyInt (z : Z)
  | PyStr (s : string).

Inductive exn : Type :=
  | ValueError
  | TypeError
  | AttributeError
  | IndexError
  | ReadTimeout
  | ConnectionError
  | HTTPError.

Inductive outcome (A : Type) : Type :=
  | Ret (a : A)
  | Raise (e : exn).

Arguments Ret {A} a.
Arguments Raise {A} e.

Definition is_ret {A} (o : outcome A) : bool :=
  match o with Ret _ => true | Raise _ => false end.

(** A feed row is a dictionary; [get] is [dict.get], [None] on a missing key. *)
Definition get (key : string) (d : gmap string pyval) : pyval :=
  default PyNone (d !! key).

(** ** Builtins *)

(** [str(v)] *)
Definition str (v : pyval) : string :=
  match v with
  | PyNone => "None"
  | PyInt z => NilZero.string_of_int (Z.to_int z)
  | PyStr s => s
  end.

Definition is_digit (c : ascii) : bool :=
  ((48 <=? nat_of_ascii c) && (nat_of_ascii c <=? 57))%nat.

Definition digit_value (c : ascii) : Z := Z.of_nat (nat_of_ascii c) - 48.

(** The blanks [int] skips around an integer text: tab, line feed,
    vertical tab, form feed, carriage return and space.  (The separators
    28 to 31, blanks for [str.strip], are none for [int].) *)
Definition is_space (c : ascii) : bool :=
  let n := nat_of_ascii c in
  (((9 <=? n) && (n <=? 13)) || (n =? 32))%nat.

Definition is_ascii (c : ascii) : bool := (nat_of_ascii c <? 128)%nat.

Fixpoint all_ascii (s : string) : bool :=
  match s with
  | EmptyString => true
  | String c t => is_ascii c && all_ascii t
  end.

Fixpoint lstrip (s : string) : string :=
  match s with
  | EmptyString => EmptyString
  | String c t => if is_space c then lstrip t else s
  end.

Fixpoint rstrip (s : string) : string :=
  match s with
  | EmptyString => EmptyString
  | String c t =>
      match rstrip t with
      | EmptyString => if is_space c then EmptyString else String c EmptyString
      | r => String c r
      end
  end.

Definition strip (s : string) : string := rstrip (lstrip s).

(** The digits of an integer literal: at least one digit, single
    underscores allowed between digits only.  [after_digit] tells whether
    the character just read was a digit. *)
Fixpoint digits_value (s : string) (acc : Z) (after_digit : bool) : option Z :=
  match s with
  | EmptyString => if after_digit then Some acc else None
  | String c t =>
      if is_digit c then digits_value t (10 * acc + digit_value c) true
      else if Ascii.eqb c "_" then
        if after_digit then digits_value t acc false else None
      else None
  end.

Definition signed_value (s : string) : option Z :=
  match s with
  | String "-" t => Z.opp <$> digits_value t 0 false
  | String "+" t => digits_value t 0 false
  | _ => digits_value s 0 false
  end.

Section Builtins.

(** [int] on a text with a character outside ASCII (Python accepts the
    decimal digits and the blanks of every script). *)
Variable unicode_int : string -> option Z.

(** [int(s)] for a text [s], base 10.  (The limit recent interpreters can
    put on the length of an integer text is taken to be off.) *)
Definition int_of_text (s : string) : option Z :=
  if all_ascii s then signed_value (strip s) else unicode_int s.

(** [int(v)] *)
Definition int (v : pyval) : outcome Z :=
  match v with
  | PyNone => Raise TypeError
  | PyInt z => Ret z
  | PyStr s =>
      match int_of_text s with
      | Some z => Ret z
      | None => Raise ValueError
      end
  end.

End Builtins.

(** [s.split(sep)] for a separator of one character. *)
Fixpoint split (sep : ascii) (s : string) : list string :=
  match s with
  | EmptyString => [EmptyString]
  | String c t =>
      if Ascii.eqb c sep then EmptyString :: split sep t
      else match split sep t with
           | h :: r => String c h :: r
           | [] => [String c EmptyString]
           end
  end.

(** [l[0]] *)
Definition item0 {A} (l : list A) : outcome A :=
  match l with
  | x :: _ => Ret x
  | [] => Raise IndexError
  end.

(** [re.sub("[^0-9]", "", s)] *)
Fixpoint sub_non_digits (s : string) : string :=
  match s with
  | EmptyString => EmptyString
  | String c t =>
      if is_digit c then String c (sub_non_digits t) else sub_non_digits t
  end.

(** [x in l] for a list of texts. *)
Definition py_in (x : string) (l : list string) : bool :=
  existsb (String.eqb x) l.

(** [l.remove(x)]: the list without the first item equal to [x];
    [ValueError] when there is none. *)
Fixpoint remove_first (x : string) (l : list string) : option (list string) :=
  match l with
  | [] => None
  | y :: t =>
      if String.eqb x y then Some t
      else cons y <$> remove_first x t
  end.

(** [len(range(start, stop, step))] for a step that is not zero. *)
Definition range_length (start stop step : Z) : nat :=
  if 0 <? step then
    if start <? stop then Z.to_nat ((stop - start - 1) / step + 1) else 0%nat
  else
    if stop <? start then Z.to_nat ((start - stop - 1) / (- step) + 1) else 0%nat.

(** [range(start, stop, step)], drained. *)
Definition range (start stop step : Z) : outcome (list Z) :=
  if step =? 0 then Raise ValueError
  else Ret (map (fun k => start + Z.of_nat k * step)
                (seq 0 (range_length start stop step))).

(** An index of a slice: negative ones count from the end, and the result
    is clamped to the list. *)
Definition slice_index (len i : Z) : Z :=
  let j := if i <? 0 then i + len else i in
  Z.max 0 (Z.min len j).

(** [l[lo:hi]] *)
Definition slice {A} (l : list A) (lo hi : Z) : list A :=
  let len := Z.of_nat (length l) in
  let a := slice_index len lo in
  let b := slice_index len hi in
  firstn (Z.to_nat (b - a)) (skipn (Z.to_nat a) l).


(** ** Outcomes as a monad, and the monad of effects *)

Definition obind {A B} (o : outcome A) (k : A -> outcome B) : outcome B :=
  match o with
  | Ret a => k a
  | Raise e => Raise e
  end.

(** The location of a list in the heap. *)
Abbreviation loc := nat.

Record world (E : Type) : Type := World {
  heap : list (list string);
  log : list E
}.

Arguments World {E} heap log.
Arguments heap {E} w.
Arguments log {E} w.

Definition M (E A : Type) : Type := world E -> outcome A * world E.

Definition ret {E A} (a : A) : M E A := fun w => (Ret a, w).

Definition raise {E A} (e : exn) : M E A := fun w => (Raise e, w).

Definition bind {E A B} (c : M E A) (k : A -> M E B) : M E B :=
  fun w =>
    match c w with
    | (Ret a, w') => k a w'
    | (Raise e, w') => (Raise e, w')
    end.

Definition lift {E A} (o : outcome A) : M E A := fun w => (o, w).

Declare Scope py_scope.
Delimit Scope py_scope with py.
Notation "x <- c1 ;; c2" := (bind c1 (fun x => c2))
  (at level 100, c1 at next level, right associativity) : py_scope.
Notation "c1 ;;; c2" := (bind c1 (fun _ => c2))
  (at level 100, right associativity) : py_scope.
Notation "x <~ c1 ;; c2" := (obind c1 (fun x => c2))
  (at level 100, c1 at next level, right associativity) : py_scope.

Open Scope py_scope.

(** [try: body except Exception as e: handler(e)] *)
Definition try_except {E A} (body : M E A) (handler : exn -> M E A) : M E A :=
  fun w =>
    match body w with
    | (Ret a, w') => (Ret a, w')
    | (Raise e, w') => handler e w'
    end.

(** A new list object. *)
Definition new_list {E} (l : list string) : M E loc :=
  fun w => (Ret (length (heap w)), World (heap w ++ [l]) (log w)).

(** The items of the list at a location. *)
Definition contents {E} (r : loc) : M E (list string) :=
  fun w => (Ret (default [] (heap w !! r)), w).

(** [r.remove(x)], in place. *)
Definition list_remove {E} (r : loc) (x : string) : M E unit :=
  fun w =>
    match remove_first x (default [] (heap w !! r)) with
    | Some l => (Ret tt, World (<[r := l]> (heap w)) (log w))
    | None => (Raise ValueError, w)
    end.

(** One more entry in the log. *)
Definition emit {E} (e : E) : M E unit :=
  fun w => (Ret tt, World (heap w) (log w ++ [e])).

(** A request to a marketplace: it enters the log, and then succeeds or
    raises as [answer] says of the log it ends.  [answer] is [None] when
    the request succeeds and the exception otherwise. *)
Definition request {E} (answer : list E -> option exn) (e : E) : M E unit :=
  emit e ;;;
  fun w => match answer (log w) with
           | None => (Ret tt, w)
           | Some err => (Raise err, w)
           end.

(** [for x in l: s = body(s, x)] *)
Fixpoint for_fold {E S A} (l : list A) (body : S -> A -> M E S) (s : S) : M E S :=
  match l with
  | [] => ret s
  | x :: t => s' <- body s x ;; for_fold t body s'
  end.

(** [for x in l: body(x)] *)
Fixpoint for_each {E A} (l : list A) (body : A -> M E unit) : M E unit :=
  match l with
  | [] => ret tt
  | x :: t => body x ;;; for_each t body
  end.

(** The object a call of an [async def] function returns: its body, not
    yet run.  [await] runs it. *)
Inductive coroutine (E A : Type) : Type :=
  | Coroutine (body : M E A).

Arguments Coroutine {E A} body.

Definition await {E A} (c : coroutine E A) : M E A :=
  match c with Coroutine body => body end.

(** A feed row, as [pandas] hands it over. *)
Abbreviation row := (gmap string pyval).

(** ** seller.py *)

Module Seller.

(** [{"offer_id": ..., "stock": ...}] *)
Module Stock.
Record t : Type := Make { offer_id : string; stock : Z }.
End Stock.

(** The price record of the first marketplace. *)
Module Price.
Record t : Type := Make {
  auto_action_enabled : string;
  currency_code : string;
  offer_id : string;
  old_price : string;
  price : string
}.
End Price.

(** What the run sends and prints. *)
Inductive event : Type :=
  | Stocks_request (client_id seller_token : string) (stocks : list Stock.t)
  | Prices_request (client_id seller_token : string) (prices : list Price.t)
  | Print (error : option exn) (text : string).

(** [price_conversion(price)] *)
Definition price_conversion (price : pyval) : outcome string :=
  match price with
  | PyStr s =>
      first <~ item0 (split "." s) ;;
      Ret (sub_non_digits first)
  | _ => Raise AttributeError
  end.

(** [divide(lst, n)], drained: the chunks in the order they are yielded. *)
Definition divide {A} (lst : list A) (n : Z) : outcome (list (list A)) :=
  indices <~ range 0 (Z.of_nat (length lst)) n ;;
  Ret (map (fun i => slice lst i (i + n)) indices).

Section Run.

Variable unicode_int : string -> option Z.

(** The answer of the marketplace to the request that ends the log:
    [None] when the request succeeds, the exception otherwise. *)
Variable answer : list event -> option exn.

(** What [get_offer_ids] fetches for the given credentials. *)
Variable catalog : string -> string -> outcome (list string).

(** What [download_stock] fetches. *)
Variable feed : outcome (list row).

(** [get_offer_ids(client_id, seller_token)]: a new list. *)
Definition get_offer_ids (client_id seller_token : string) : M event loc :=
  ids <- lift (catalog client_id seller_token) ;;
  new_list ids.

Definition download_stock : M event (list row) := lift feed.

Definition update_stocks (stocks : list Stock.t) (client_id seller_token : string)
  : M event unit :=
  request answer (Stocks_request client_id seller_token stocks).

Definition update_price (prices : list Price.t) (client_id seller_token : string)
  : M event unit :=
  request answer (Prices_request client_id seller_token prices).

(** [create_stocks(watch_remnants, offer_ids)] *)
Definition create_stocks (watch_remnants : list row) (offer_ids : loc)
  : M event (list Stock.t) :=
  stocks <- for_fold watch_remnants (fun stocks watch =>
      ids <- contents offer_ids ;;
      if py_in (str (get "Код" watch)) ids then
        let count := str (get "Количество" watch) in
        stock <- (if String.eqb count ">10" then ret 100
                  else if String.eqb count "1" then ret 0
                  else lift (int unicode_int (get "Количество" watch))) ;;
        let stocks := stocks ++ [Stock.Make (str (get "Код" watch)) stock] in
        list_remove offer_ids (str (get "Код" watch)) ;;;
        ret stocks
      else ret stocks) [] ;;
  ids <- contents offer_ids ;;
  ret (fold_left (fun stocks offer_id => stocks ++ [Stock.Make offer_id 0])
                 ids stocks).

(** [create_prices(watch_remnants, offer_ids)] *)
Definition create_prices (watch_remnants : list row) (offer_ids : loc)
  : M event (list Price.t) :=
  for_fold watch_remnants (fun prices watch =>
      ids <- contents offer_ids ;;
      if py_in (str (get "Код" watch)) ids then
        converted <- lift (price_conversion (get "Цена" watch)) ;;
        let price :=
          Price.Make "UNKNOWN" "RUB" (str (get "Код" watch)) "0" converted in
        ret (prices ++ [price])
      else ret prices) [].

(** [async def upload_prices(watch_remnants, client_id, seller_token)] *)
Definition upload_prices (watch_remnants : list row) (client_id seller_token : string)
  : coroutine event (list Price.t) :=
  Coroutine (
    offer_ids <- get_offer_ids client_id seller_token ;;
    prices <- create_prices watch_remnants offer_ids ;;
    batches <- lift (divide prices 1000) ;;
    for_each batches (fun some_price =>
      update_price some_price client_id seller_token) ;;;
    ret prices).

(** [async def upload_stocks(watch_remnants, client_id, seller_token)] *)
Definition upload_stocks (watch_remnants : list row) (client_id seller_token : string)
  : coroutine event (list Stock.t * list Stock.t) :=
  Coroutine (
    offer_ids <- get_offer_ids client_id seller_token ;;
    stocks <- create_stocks watch_remnants offer_ids ;;
    batches <- lift (divide stocks 100) ;;
    for_each batches (fun some_stock =>
      update_stocks some_stock client_id seller_token) ;;;
    let not_empty :=
      List.filter (fun stock => negb (Stock.stock stock =? 0)) stocks in
    ret (not_empty, stocks)).

(** The [try] block of [main]. *)
Definition main_try (seller_token client_id : string) : M event unit :=
  offer_ids <- get_offer_ids client_id seller_token ;;
  watch_remnants <- download_stock ;;
  stocks <- create_stocks watch_remnants offer_ids ;;
  batches <- lift (divide stocks 100) ;;
  for_each batches (fun some_stock =>
    update_stocks some_stock client_id seller_token) ;;;
  prices <- create_prices watch_remnants offer_ids ;;
  batches <- lift (divide prices 900) ;;
  for_each batches (fun some_price =>
    update_price some_price client_id seller_token).

(** Its [except] clauses. *)
Definition main_except (error : exn) : M event unit :=
  match error with
  | ReadTimeout => emit (Print None "Превышено время ожидания...")
  | ConnectionError => emit (Print (Some error) "Ошибка соединения")
  | _ => emit (Print (Some error) "ERROR_2")
  end.

(** [main()], the credentials having been read from the environment. *)
Definition main (seller_token client_id : string) : M event unit :=
  try_except (main_try seller_token client_id) main_except.

End Run.

End Seller.

(** ** market.py *)

Module Market.

(** The stock record of the second marketplace:
    [{"sku": ..., "warehouseId": ..., "items": [{"count": ..., "type":
    "FIT", "updatedAt": ...}]}] *)
Module Stock.
Record item : Type := Item { count : Z; type : string; updatedAt : string }.
Record t : Type := Make { sku : string; warehouseId : string; items : list item }.
End Stock.

(** [{"id": ..., "price": {"value": ..., "currencyId": "RUR"}}] *)
Module Price.
Record amount : Type := Amount { value : Z; currencyId : string }.
Record t : Type := Make { id : string; price : amount }.
End Price.

Inductive event : Type :=
  | Stocks_request (campaign_id access_token : string) (stocks : list Stock.t)
  | Prices_request (campaign_id access_token : string) (prices : list Price.t)
  | Print (error : option exn) (text : string).

Section Run.

Variable unicode_int : string -> option Z.

(** The answer of the marketplace to the request that ends the log. *)
Variable answer : list event -> option exn.

(** What [get_offer_ids] fetches for the given campaign and token. *)
Variable catalog : string -> string -> outcome (list string).

(** What [download_stock] fetches. *)
Variable feed : outcome (list row).

(** The text of [datetime.utcnow()], seconds precision, with ["Z"],
    read when the log is the given one. *)
Variable utcnow : list event -> string.

Definition get_offer_ids (campaign_id market_token : string) : M event loc :=
  ids <- lift (catalog campaign_id market_token) ;;
  new_list ids.

Definition download_stock : M event (list row) := lift feed.

Definition update_stocks (stocks : list Stock.t) (campaign_id access_token : string)
  : M event unit :=
  request answer (Stocks_request campaign_id access_token stocks).

Definition update_price (prices : list Price.t) (campaign_id access_token : string)
  : M event unit :=
  request answer (Prices_request campaign_id access_token prices).

(** [create_stocks(watch_remnants, offer_ids, warehouse_id)] *)
Definition create_stocks (watch_remnants : list row) (offer_ids : loc)
    (warehouse_id : string) : M event (list Stock.t) :=
  date <- (fun w => (Ret (utcnow (log w)), w)) ;;
  stocks <- for_fold watch_remnants (fun stocks watch =>
      ids <- contents offer_ids ;;
      if py_in (str (get "Код" watch)) ids then
        let count := str (get "Количество" watch) in
        stock <- (if String.eqb count ">10" then ret 100
                  else if String.eqb count "1" then ret 0
                  else lift (int unicode_int (get "Количество" watch))) ;;
        let stocks :=
          stocks ++ [Stock.Make (str (get "Код" watch)) warehouse_id
                                [Stock.Item stock "FIT" date]] in
        list_remove offer_ids (str (get "Код" watch)) ;;;
        ret stocks
      else ret stocks) [] ;;
  ids <- contents offer_ids ;;
  ret (fold_left (fun stocks offer_id =>
                    stocks ++ [Stock.Make offer_id warehouse_id
                                          [Stock.Item 0 "FIT" date]])
                 ids stocks).

(** [create_prices(watch_remnants, offer_ids)] *)
Definition create_prices (watch_remnants : list row) (offer_ids : loc)
  : M event (list Price.t) :=
  for_fold watch_remnants (fun prices watch =>
      ids <- contents offer_ids ;;
      if py_in (str (get "Код" watch)) ids then
        converted <- lift (Seller.price_conversion (get "Цена" watch)) ;;
        value <- lift (int unicode_int (PyStr converted)) ;;
        let price :=
          Price.Make (str (get "Код" watch)) (Price.Amount value "RUR") in
        ret (prices ++ [price])
      else ret prices) [].

(** [async def upload_prices(watch_remnants, campaign_id, market_token)] *)
Definition upload_prices (watch_remnants : list row) (campaign_id market_token : string)
  : coroutine event (list Price.t) :=
  Coroutine (
    offer_ids <- get_offer_ids campaign_id market_token ;;
    prices <- create_prices watch_remnants offer_ids ;;
    batches <- lift (Seller.divide prices 500) ;;
    for_each batches (fun some_prices =>
      update_price some_prices campaign_id market_token) ;;;
    ret prices).

(** [async def upload_stocks(watch_remnants, campaign_id, market_token,
    warehouse_id)] *)
Definition upload_stocks (watch_remnants : list row)
    (campaign_id market_token warehouse_id : string)
  : coroutine event (list Stock.t * list Stock.t) :=
  Coroutine (
    offer_ids <- get_offer_ids campaign_id market_token ;;
    stocks <- create_stocks watch_remnants offer_ids warehouse_id ;;
    batches <- lift (Seller.divide stocks 2000) ;;
    for_each batches (fun some_stock =>
      update_stocks some_stock campaign_id market_token) ;;;
    let not_empty :=
      List.filter (fun stock =>
                     match Stock.items stock with
                     | first :: _ => negb (Stock.count first =? 0)
                     | [] => false
                     end) stocks in
    ret (not_empty, stocks)).

(** The [try] block of [main].  The two calls of [upload_prices] are
    statements of their own: each makes a coroutine that nothing
    awaits. *)
Definition main_try (watch_remnants : list row)
    (market_token campaign_fbs_id campaign_dbs_id
     warehouse_fbs_id warehouse_dbs_id : string) : M event unit :=
  offer_ids <- get_offer_ids campaign_fbs_id market_token ;;
  stocks <- create_stocks watch_remnants offer_ids warehouse_fbs_id ;;
  batches <- lift (Seller.divide stocks 2000) ;;
  for_each batches (fun some_stock =>
    update_stocks some_stock campaign_fbs_id market_token) ;;;
  ret (upload_prices watch_remnants campaign_fbs_id market_token) ;;;
  offer_ids <- get_offer_ids campaign_dbs_id market_token ;;
  stocks <- create_stocks watch_remnants offer_ids warehouse_dbs_id ;;
  batches <- lift (Seller.divide stocks 2000) ;;
  for_each batches (fun some_stock =>
    update_stocks some_stock campaign_dbs_id market_token) ;;;
  ret (upload_prices watch_remnants campaign_dbs_id market_token) ;;;
  ret tt.

(** Its [except] clauses. *)
Definition main_except (error : exn) : M event unit :=
  match error with
  | ReadTimeout => emit (Print None "Превышено время ожидания...")
  | ConnectionError => emit (Print (Some error) "Ошибка соединения")
  | _ => emit (Print (Some error) "ERROR_2")
  end.

(** [main()], the settings having been read from the environment;
    [download_stock] is called before the [try]. *)
Definition main (market_token campaign_fbs_id campaign_dbs_id
                 warehouse_fbs_id warehouse_dbs_id : string) : M event unit :=
  watch_remnants <- download_stock ;;
  try_except
    (main_try watch_remnants market_token campaign_fbs_id campaign_dbs_id
              warehouse_fbs_id warehouse_dbs_id)
    main_except.

End Run.

End Market.

(** ** The properties, in the words of the specification *)

(** The text before the first ["."] (the whole text when it has none). *)
Definition before_first_dot (s : string) : string :=
  match index 0 "." s with
  | Some n => substring 0 n s
  | None => s
  end.

(** The decimal digits of a text, in order. *)
Definition digits_of (s : string) : string :=
  string_of_list_ascii (List.filter is_digit (list_ascii_of_string s)).

Definition digit_only (s : string) : Prop :=
  Forall (fun c => is_digit c = true) (list_ascii_of_string s).

(** The [k]-th run of [n] items of a list. *)
Definition chunk {A} (n : nat) (lst : list A) (k : nat) : list A :=
  firstn n (skipn (k * n) lst).

(** The number of chunks of [n] items a list of [len] items is cut into. *)
Definition chunk_count (len n : Z) : nat := Z.to_nat ((len + n - 1) / n).

(** The offer code of a feed row, as text. *)
Definition code (watch : row) : string := str (get "Код" watch).

(** How often a text occurs in a list. *)
Definition occurrences (x : string) (l : list string) : nat :=
  count_occ String.string_dec l x.

Section Quantity.

Variable unicode_int : string -> option Z.

(** The quantity rule: raw [">10"] is 100, raw ["1"] is 0, anything else
    is read as a base 10 integer. *)
Definition quantity (watch : row) : outcome Z :=
  let count := str (get "Количество" watch) in
  if String.eqb count ">10" then Ret 100
  else if String.eqb count "1" then Ret 0
  else int unicode_int (get "Количество" watch).

Definition quantity_value (watch : row) : Z :=
  match quantity watch with
  | Ret q => q
  | Raise _ => 0
  end.

End Quantity.

(** The feed rows that find their code in what remains of the catalog:
    a row does when fewer rows before it carry its code than the catalog
    has entries of it.  [earlier] holds the codes of the rows before. *)
Fixpoint matched_after (earlier ids : list string) (rows : list row) : list row :=
  match rows with
  | [] => []
  | watch :: rest =>
      let later := matched_after (code watch :: earlier) ids rest in
      if (occurrences (code watch) earlier <? occurrences (code watch) ids)%nat
      then watch :: later
      else later
  end.

Definition matched (ids : list string) (rows : list row) : list row :=
  matched_after [] ids rows.

(** The catalog entries no feed row is matched with: an entry is left when
    at least as many equal entries come before it as there are rows with
    its code.  [earlier] holds the entries before. *)
Fixpoint unmatched_after (earlier codes ids : list string) : list string :=
  match ids with
  | [] => []
  | x :: rest =>
      let later := unmatched_after (x :: earlier) codes rest in
      if (occurrences x earlier <? occurrences x codes)%nat
      then later
      else x :: later
  end.

Definition unmatched (rows : list row) (ids : list string) : list string :=
  unmatched_after [] (map code rows) ids.

(** For a catalog without repetition: the rows whose code is in the
    catalog and on no row before, *)
Fixpoint first_covered_after (earlier ids : list string) (rows : list row) : list row :=
  match rows with
  | [] => []
  | watch :: rest =>
      let later := first_covered_after (code watch :: earlier) ids rest in
      if py_in (code watch) ids && negb (py_in (code watch) earlier)
      then watch :: later
      else later
  end.

Definition first_covered (ids : list string) (rows : list row) : list row :=
  first_covered_after [] ids rows.

(** and the catalog ids that are the code of no row. *)
Definition uncovered (rows : list row) (ids : list string) : list string :=
  List.filter (fun x => negb (py_in x (map code rows))) ids.

(** The rows whose code is in the catalog. *)
Definition covered (ids : list string) (rows : list row) : list row :=
  List.filter (fun watch => py_in (code watch) ids) rows.

(** ** The reconciliation loop without the heap

    [taken cur rows] and [left_over cur rows] follow the first loop of
    [create_stocks] on a catalog list holding [cur]: the rows it makes a
    record for, and what the list holds in the end. *)

Definition remove1 (x : string) (l : list string) : list string :=
  default l (remove_first x l).

Fixpoint taken (cur : list string) (rows : list row) : list row :=
  match rows with
  | [] => []
  | watch :: rest =>
      if py_in (code watch) cur
      then watch :: taken (remove1 (code watch) cur) rest
      else taken cur rest
  end.

Fixpoint left_over (cur : list string) (rows : list row) : list string :=
  match rows with
  | [] => cur
  | watch :: rest =>
      if py_in (code watch) cur
      then left_over (remove1 (code watch) cur) rest
      else left_over cur rest
  end.

(** [create_stocks] for any shape of record: [mk c q] is the record of
    offer [c] with quantity [q].  Both marketplaces run this loop, each
    with its own record. *)
Section Stock_loop.

Context {E R : Type}.
Variable unicode_int : string -> option Z.
Variable mk : string -> Z -> R.

Definition stock_step (offer_ids : loc) (stocks : list R) (watch : row)
  : M E (list R) :=
  ids <- contents offer_ids ;;
  if py_in (str (get "Код" watch)) ids then
    let count := str (get "Количество" watch) in
    stock <- (if String.eqb count ">10" then ret 100
              else if String.eqb count "1" then ret 0
              else lift (int unicode_int (get "Количество" watch))) ;;
    let stocks := stocks ++ [mk (str (get "Код" watch)) stock] in
    list_remove offer_ids (str (get "Код" watch)) ;;;
    ret stocks
  else ret stocks.

Definition stock_loop (watch_remnants : list row) (offer_ids : loc)
  : M E (list R) :=
  stocks <- for_fold watch_remnants (stock_step offer_ids) [] ;;
  ids <- contents offer_ids ;;
  ret (fold_left (fun stocks offer_id => stocks ++ [mk offer_id 0]) ids stocks).

End Stock_loop.

(** ** The loop of [create_prices] *)

(** The results of [f] on the items of a list, up to the first that raises. *)
Fixpoint traverse {A B} (f : A -> outcome B) (l : list A) : outcome (list B) :=
  match l with
  | [] => Ret []
  | x :: t => y <~ f x ;; ys <~ traverse f t ;; Ret (y :: ys)
  end.

(** The price record of a row, on the first marketplace *)
Definition seller_price_of (watch : row) : outcome Seller.Price.t :=
  converted <~ Seller.price_conversion (get "Цена" watch) ;;
  Ret (Seller.Price.Make "UNKNOWN" "RUB" (code watch) "0" converted).

(** and on the second. *)
Definition market_price_of (unicode_int : string -> option Z) (watch : row)
  : outcome Market.Price.t :=
  converted <~ Seller.price_conversion (get "Цена" watch) ;;
  value <~ int unicode_int (PyStr converted) ;;
  Ret (Market.Price.Make (code watch) (Market.Price.Amount value "RUR")).

(** The number a text of decimal digits writes. *)
Definition number_of (digits : string) : Z :=
  fold_left (fun acc c => 10 * acc + digit_value c) (list_ascii_of_string digits) 0.

(** The raw price of a row when it is a text. *)
Definition price_text (watch : row) : option string :=
  match get "Цена" watch with
  | PyStr s => Some s
  | _ => None
  end.

(** The parsed price of a row: the digits before the first ["."]. *)
Definition parsed_price (watch : row) : string :=
  digits_of (before_first_dot (default "" (price_text watch))).

Definition has_text_price (watch : row) : Prop :=
  is_Some (price_text watch).

Definition has_digit_price (watch : row) : Prop :=
  is_Some (price_text watch) /\ parsed_price watch <> "".

(** The two price records the specification describes. *)
Definition seller_price (watch : row) : Seller.Price.t :=
  Seller.Price.Make "UNKNOWN" "RUB" (code watch) "0" (parsed_price watch).

Definition market_price (watch : row) : Market.Price.t :=
  Market.Price.Make (code watch)
                    (Market.Price.Amount (number_of (parsed_price watch)) "RUR").

(** ** The reconciled stock lists *)

Section Stocks.

Variable unicode_int : string -> option Z.

(** A raw quantity the rule has no value for. *)
Definition malformed_quantity (watch : row) : Prop :=
  str (get "Количество" watch) <> ">10"
  /\ str (get "Количество" watch) <> "1"
  /\ is_ret (int unicode_int (get "Количество" watch)) = false.

(** First the matched rows with the quantity of the rule, in the order
    of the feed, then the entries left with quantity 0, in the order of
    the catalog. *)
Definition seller_stocks (rows : list row) (ids : list string)
  : list Seller.Stock.t :=
  map (fun watch => Seller.Stock.Make (code watch) (quantity_value unicode_int watch))
      (matched ids rows)
  ++ map (fun x => Seller.Stock.Make x 0) (unmatched rows ids).

Definition market_stocks (warehouse date : string) (rows : list row)
    (ids : list string) : list Market.Stock.t :=
  map (fun watch =>
         Market.Stock.Make (code watch) warehouse
           [Market.Stock.Item (quantity_value unicode_int watch) "FIT" date])
      (matched ids rows)
  ++ map (fun x => Market.Stock.Make x warehouse [Market.Stock.Item 0 "FIT" date])
         (unmatched rows ids).

End Stocks.

(** A feed row with the three cells the reconcilers read. *)
Definition feed_row (kod kolichestvo tsena : pyval) : row :=
  <["Код" := kod]> (<["Количество" := kolichestvo]> (<["Цена" := tsena]> ∅)).

(** ** Batches on the wire *)

(** The chunks of [limit] items of a list, in order. *)
Definition chunks_of {X} (limit : Z) (records : list X) : list (list X) :=
  map (chunk (Z.to_nat limit) records)
      (seq 0 (chunk_count (Z.of_nat (length records)) limit)).

(** Requests that carry, in order, the first chunks of [limit] items of
    one list of records: what an upload loop over [divide(records, limit)]
    sends, up to the request that fails. *)
Definition sent_in_chunks {E X} (limit : Z) (mk : list X -> E)
    (events : list E) : Prop :=
  exists records k, events = map mk (firstn k (chunks_of limit records)).

Definition is_prices_request (e : Seller.event) : bool :=
  match e with
  | Seller.Prices_request _ _ _ => true
  | _ => false
  end.

Definition is_market_prices_request (e : Market.event) : bool :=
  match e with
  | Market.Prices_request _ _ _ => true
  | _ => false
  end.

(** The sizes of the batches of the requests of a log. *)
Definition market_batch_sizes (events : list Market.event) : list nat :=
  flat_map (fun e => match e with
                     | Market.Stocks_request _ _ b => [length b]
                     | Market.Prices_request _ _ b => [length b]
                     | Market.Print _ _ => []
                     end) events.

(** ** The catalog fetchers

    [get_product_list] and [get_offer_ids] of both files, on decoded JSON.
    The marketplace is a parameter: what the [n]-th request of a run
    gives for the cursor it is sent with, the decoded body or the
    exception of the request, of its status check or of the decoding.
    The loop [while True] runs on fuel: [None] is a run that has not
    ended when the fuel is used up. *)

(** A decoded JSON value (numbers with a fraction are outside the model);
    an object is the list of its keys and values, each key once. *)
#[warnings="-register-all"]
Inductive json : Type :=
  | JNull
  | JBool (b : bool)
  | JInt (z : Z)
  | JStr (s : string)
  | JList (l : list json)
  | JDict (d : list (string * json)).

(** [d[key]] for the keys of an object. *)
Fixpoint assoc (key : string) (d : list (string * json)) : option json :=
  match d with
  | [] => None
  | (k, v) :: rest => if String.eqb key k then Some v else assoc key rest
  end.

(** [v.get(key)]: only an object has the method. *)
Definition jget (key : string) (v : json) : outcome json :=
  match v with
  | JDict d => Ret (default JNull (assoc key d))
  | _ => Raise AttributeError
  end.

(** A byte that continues a character of several bytes. *)
Definition is_continuation (c : ascii) : bool :=
  ((128 <=? nat_of_ascii c) && (nat_of_ascii c <? 192))%nat.

(** The characters of a text, each as a text. *)
Fixpoint characters (s : string) : list string :=
  match s with
  | EmptyString => []
  | String c t =>
      match characters t with
      | String c' h :: r =>
          if is_continuation c' then String c (String c' h) :: r
          else String c EmptyString :: String c' h :: r
      | other => String c EmptyString :: other
      end
  end.

(** What [list.extend(v)] appends: the items of a list, the characters of
    a text, the keys of an object; nothing else can be iterated. *)
Definition iterate (v : json) : outcome (list json) :=
  match v with
  | JList l => Ret l
  | JStr s => Ret (map JStr (characters s))
  | JDict d => Ret (map (fun kv => JStr (fst kv)) d)
  | _ => Raise TypeError
  end.

(** [v == n] for an integer [n]. *)
Definition equals_int (v : json) (n : Z) : bool :=
  match v with
  | JInt z => z =? n
  | JBool b => (if b then 1 else 0) =? n
  | _ => false
  end.

(** [not v] *)
Definition falsy (v : json) : bool :=
  match v with
  | JNull => true
  | JBool b => negb b
  | JInt z => z =? 0
  | JStr s => String.eqb s ""
  | JList l => match l with [] => true | _ => false end
  | JDict d => match d with [] => true | _ => false end
  end.

Module Seller_catalog.

Section Paging.

(** [requests.post(url, json=payload, headers=headers)], its status check
    and [response.json()], for the [n]-th request and [last_id]. *)
Variable post : nat -> json -> outcome json.

(** [get_product_list(last_id, client_id, seller_token)], as the [n]-th
    request. *)
Definition get_product_list (n : nat) (last_id : json) : outcome json :=
  response_object <~ post n last_id ;;
  jget "result" response_object.

(** The loop of [get_offer_ids], from its [n]-th round on. *)
Fixpoint collect (fuel n : nat) (last_id : json) (product_list : list json)
  : option (outcome (list json)) :=
  match fuel with
  | O => None
  | S fuel' =>
      match (some_prod <~ get_product_list n last_id ;;
             items <~ jget "items" some_prod ;;
             more <~ iterate items ;;
             total <~ jget "total" some_prod ;;
             last_id <~ jget "last_id" some_prod ;;
             Ret (product_list ++ more, total, last_id)) with
      | Raise e => Some (Raise e)
      | Ret (product_list, total, last_id) =>
          if equals_int total (Z.of_nat (length product_list))
          then Some (Ret product_list)
          else collect fuel' (S n) last_id product_list
      end
  end.

(** [get_offer_ids(client_id, seller_token)] *)
Definition get_offer_ids (fuel : nat) : option (outcome (list json)) :=
  match collect fuel 0 (JStr "") [] with
  | None => None
  | Some (Raise e) => Some (Raise e)
  | Some (Ret product_list) => Some (traverse (jget "offer_id") product_list)
  end.

End Paging.

End Seller_catalog.

Module Market_catalog.

Section Paging.

(** [requests.get(url, headers=headers, params=payload)], its status
    check and [response.json()], for the [n]-th request and [page]. *)
Variable fetch : nat -> json -> outcome json.

(** [get_product_list(page, campaign_id, access_token)], as the [n]-th
    request. *)
Definition get_product_list (n : nat) (page : json) : outcome json :=
  response_object <~ fetch n page ;;
  jget "result" response_object.

(** The loop of [get_offer_ids], from its [n]-th round on. *)
Fixpoint collect (fuel n : nat) (page : json) (product_list : list json)
  : option (outcome (list json)) :=
  match fuel with
  | O => None
  | S fuel' =>
      match (some_prod <~ get_product_list n page ;;
             entries <~ jget "offerMappingEntries" some_prod ;;
             more <~ iterate entries ;;
             paging <~ jget "paging" some_prod ;;
             page <~ jget "nextPageToken" paging ;;
             Ret (product_list ++ more, page)) with
      | Raise e => Some (Raise e)
      | Ret (product_list, page) =>
          if falsy page
          then Some (Ret product_list)
          else collect fuel' (S n) page product_list
      end
  end.

(** [get_offer_ids(campaign_id, market_token)] *)
Definition get_offer_ids (fuel : nat) : option (outcome (list json)) :=
  match collect fuel 0 (JStr "") [] with
  | None => None
  | Some (Raise e) => Some (Raise e)
  | Some (Ret product_list) =>
      Some (traverse (fun product => offer <~ jget "offer" product ;;
                                     jget "shopSku" offer)
                     product_list)
  end.

End Paging.

End Market_catalog.

(** The bodies a well-behaved marketplace answers with. *)
Definition seller_page (items : list json) (total last_id : json) : json :=
  JDict [("result",
          JDict [("items", JList items); ("total", total); ("last_id", last_id)])].

Definition market_page (entries : list json) (token : json) : json :=
  JDict [("result",
          JDict [("offerMappingEntries", JList entries);
                 ("paging", JDict [("nextPageToken", token)])])].

(** The items of the pages [0] to [k]. *)
Definition pages_up_to (served : nat -> list json) (k : nat) : list json :=
  concat (map served (seq 0 (S k))).

(** ** The price parser *)

Lemma split_nonempty sep s : split sep s <> [].
Proof.
  destruct s as [|c t]; simpl; [discriminate|].
  destruct (Ascii.eqb c sep); [discriminate|].
  destruct (split sep t); discriminate.
Qed.

Lemma index_dot_cons c t :
  index 0 "." (String c t) =
  if Ascii.eqb c "." then Some 0%nat
  else match index 0 "." t with Some n => Some (S n) | None => None end.
Proof.
  cbn [index String.prefix]. destruct (ascii_dec "." c) as [<-|Hne].
  - now destruct t.
  - destruct (Ascii.eqb_spec c "."); [congruence|reflexivity].
Qed.

Lemma substring_all s : substring 0 (String.length s) s = s.
Proof. induction s; simpl; congruence. Qed.

Lemma split_dot_head s :
  exists rest, split "." s = before_first_dot s :: rest.
Proof.
  unfold before_first_dot. induction s as [|c t [rest IH]].
  - exists []. reflexivity.
  - rewrite index_dot_cons. cbn [split].
    destruct (Ascii.eqb c ".").
    + eexists. reflexivity.
    + rewrite IH. destruct (index 0 "." t); eexists; reflexivity.
Qed.

Lemma sub_non_digits_filter s : sub_non_digits s = digits_of s.
Proof.
  unfold digits_of. induction s as [|c t IH]; simpl; [reflexivity|].
  destruct (is_digit c); simpl; congruence.
Qed.

Lemma digits_of_digit_only s : digit_only (digits_of s).
Proof.
  unfold digit_only, digits_of. rewrite list_ascii_of_string_of_list_ascii.
  apply List.Forall_forall. intros c Hc. apply List.filter_In in Hc. tauto.
Qed.

Lemma digits_of_empty s :
  Forall (fun c => is_digit c = false) (list_ascii_of_string s) ->
  digits_of s = "".
Proof.
  unfold digits_of. induction s as [|c t IH]; simpl; [reflexivity|].
  intros H. inversion H as [|? ? Hc Ht]; subst. rewrite Hc. auto.
Qed.

Lemma price_conversion_of_text s :
  Seller.price_conversion (PyStr s) = Ret (digits_of (before_first_dot s)).
Proof.
  unfold Seller.price_conversion. destruct (split_dot_head s) as [rest ->].
  simpl. now rewrite sub_non_digits_filter.
Qed.

(** C4. For every raw price text, [price_conversion] returns the text before
    the first ["."] with every character that is not a decimal digit
    removed, which is a text of digits only; ["5'990.00 руб."] gives
    ["5990"], ["10'990.00 руб."] gives ["10990"], and a text with no digit
    before its first ["."] gives the empty text. *)
Theorem price_conversion_digits_before_dot :
  (forall s : string,
      Seller.price_conversion (PyStr s) = Ret (digits_of (before_first_dot s))
      /\ digit_only (digits_of (before_first_dot s))
      /\ (Forall (fun c => is_digit c = false)
                 (list_ascii_of_string (before_first_dot s)) ->
          Seller.price_conversion (PyStr s) = Ret ""))
  /\ Seller.price_conversion (PyStr "5'990.00 руб.") = Ret "5990"
  /\ Seller.price_conversion (PyStr "10'990.00 руб.") = Ret "10990".
Proof.
  split; [|split; reflexivity].
  intros s. split; [apply price_conversion_of_text|].
  split; [apply digits_of_digit_only|].
  intros Hnone. rewrite price_conversion_of_text. now rewrite digits_of_empty.
Qed.

(** ** The batcher *)

Section Chunks.

Context {A : Type}.
Implicit Types (lst : list A) (n k : nat).

Lemma chunk_length n lst k :
  length (chunk n lst k) = Nat.min n (length lst - k * n).
Proof. unfold chunk. now rewrite List.length_firstn, List.length_skipn. Qed.

Lemma chunk_succ n lst k : chunk n lst (S k) = chunk n (skipn n lst) k.
Proof.
  unfold chunk. rewrite List.skipn_skipn. f_equal. f_equal. simpl. lia.
Qed.

Lemma concat_chunks n : forall cnt lst,
  (length lst <= cnt * n)%nat ->
  concat (map (chunk n lst) (seq 0 cnt)) = lst.
Proof.
  induction cnt as [|cnt IH]; intros lst Hlen.
  - destruct lst; [reflexivity|simpl in Hlen; lia].
  - cbn [seq map concat]. rewrite <- List.seq_shift, List.map_map.
    rewrite (List.map_ext _ (chunk n (skipn n lst))) by apply chunk_succ.
    rewrite IH by (rewrite List.length_skipn; simpl in Hlen; lia).
    unfold chunk. simpl. apply List.firstn_skipn.
Qed.

(** A slice that starts inside the list and is [n] long is a chunk. *)
Lemma slice_chunk lst (n : Z) k :
  0 < n -> (k * Z.to_nat n < length lst)%nat ->
  slice lst (Z.of_nat k * n) (Z.of_nat k * n + n) = chunk (Z.to_nat n) lst k.
Proof.
  intros Hn Hk. unfold slice, slice_index, chunk.
  set (len := Z.of_nat (length lst)).
  assert (Hkn : Z.of_nat k * n = Z.of_nat (k * Z.to_nat n)) by lia.
  assert (Hlt : Z.of_nat k * n < len) by (unfold len; lia).
  destruct (Z.ltb_spec (Z.of_nat k * n) 0); [lia|].
  destruct (Z.ltb_spec (Z.of_nat k * n + n) 0); [lia|].
  replace (Z.to_nat (Z.max 0 (Z.min len (Z.of_nat k * n))))
    with (k * Z.to_nat n)%nat by lia.
  destruct (Z.le_gt_cases (Z.of_nat k * n + n) len) as [Hin|Hout].
  - f_equal. lia.
  - rewrite (List.firstn_all2 (n := Z.to_nat n))
      by (rewrite List.length_skipn; unfold len in Hout; lia).
    apply List.firstn_all2. rewrite List.length_skipn. unfold len. lia.
Qed.

End Chunks.

Lemma chunk_count_bounds (len : nat) (n : Z) :
  0 < n ->
  (len <= chunk_count (Z.of_nat len) n * Z.to_nat n)%nat
  /\ ((chunk_count (Z.of_nat len) n - 1) * Z.to_nat n < len
      \/ len = 0%nat /\ chunk_count (Z.of_nat len) n = 0%nat)%nat.
Proof.
  intros Hn. unfold chunk_count.
  pose proof (Z.div_mod (Z.of_nat len + n - 1) n ltac:(lia)) as Hdm.
  pose proof (Z.mod_pos_bound (Z.of_nat len + n - 1) n Hn) as Hr.
  set (q := (Z.of_nat len + n - 1) / n) in *.
  assert (Hq : 0 <= q) by (apply Z.div_pos; lia).
  split; [nia|].
  destruct len as [|len]; [right; split; [reflexivity|]|left; nia].
  assert (q = 0) by nia. lia.
Qed.

Lemma range_length_chunk_count (len n : Z) :
  0 <= len -> 0 < n -> range_length 0 len n = chunk_count len n.
Proof.
  intros Hlen Hn. unfold range_length, chunk_count.
  destruct (Z.ltb_spec 0 n); [|lia].
  destruct (Z.ltb_spec 0 len).
  - replace (len + n - 1) with (len - 0 - 1 + 1 * n) by lia.
    now rewrite Z.div_add by lia.
  - replace len with 0 by lia. now rewrite Z.div_small by lia.
Qed.

Lemma divide_chunks {A} (lst : list A) (n : Z) :
  0 < n ->
  Seller.divide lst n
  = Ret (map (chunk (Z.to_nat n) lst)
             (seq 0 (chunk_count (Z.of_nat (length lst)) n))).
Proof.
  intros Hn. unfold Seller.divide, range.
  destruct (Z.eqb_spec n 0); [lia|]. cbn [obind].
  rewrite range_length_chunk_count by lia. f_equal.
  rewrite List.map_map. apply List.map_ext_in. intros k Hk.
  apply List.in_seq in Hk.
  destruct (chunk_count_bounds (length lst) n Hn) as [_ [Hlast|[_ H0]]]; [|lia].
  rewrite Z.add_0_l. apply slice_chunk; [assumption|nia].
Qed.

(** C2. For every list and every positive chunk size [n], [divide] yields
    finitely many chunks, the [k]-th being the [n] items of the list from
    position [k * n] on (a contiguous run), every chunk but the last of
    length [n], the last of length [length mod n], or [n] when [n] divides
    the length, and the chunks put end to end are the list. *)
Theorem divide_partitions_in_order {A} (lst : list A) (n : Z) :
  0 < n ->
  exists chunks : list (list A),
    Seller.divide lst n = Ret chunks
    /\ concat chunks = lst
    /\ length chunks = chunk_count (Z.of_nat (length lst)) n
    /\ (forall k c, chunks !! k = Some c -> c = chunk (Z.to_nat n) lst k)
    /\ (forall k c, chunks !! k = Some c -> (S k < length chunks)%nat ->
                    Z.of_nat (length c) = n)
    /\ (forall c, last chunks = Some c ->
                  Z.of_nat (length c)
                  = if Z.of_nat (length lst) mod n =? 0 then n
                    else Z.of_nat (length lst) mod n).
Proof.
  intros Hn. eexists. split; [apply divide_chunks, Hn|].
  set (cnt := chunk_count (Z.of_nat (length lst)) n).
  destruct (chunk_count_bounds (length lst) n Hn) as [Hup Hlow].
  fold cnt in Hup, Hlow.
  assert (Hlookup : forall k c,
             map (chunk (Z.to_nat n) lst) (seq 0 cnt) !! k = Some c ->
             (k < cnt)%nat /\ c = chunk (Z.to_nat n) lst k).
  { intros k c Hkc. rewrite list_lookup_fmap in Hkc.
    destruct (seq 0 cnt !! k) as [j|] eqn:Hj; [|discriminate].
    apply lookup_seq in Hj as [-> Hlt]. simpl in Hkc. split; congruence. }
  split; [now apply concat_chunks|].
  split; [now rewrite List.length_map, List.length_seq|].
  split; [intros k c Hkc; now apply Hlookup|].
  split.
  - intros k c Hkc Hnext. rewrite List.length_map, List.length_seq in Hnext.
    apply Hlookup in Hkc as [_ ->]. rewrite chunk_length. nia.
  - intros c Hc. rewrite last_lookup in Hc.
    rewrite List.length_map, List.length_seq in Hc.
    apply Hlookup in Hc as [Hlt ->]. rewrite chunk_length.
    destruct Hlow as [Hlow|[_ H0]]; [|lia].
    set (r := Z.of_nat (length lst) - Z.of_nat (Nat.pred cnt) * n).
    assert (Hr : 0 < r <= n) by (unfold r; nia).
    replace (Z.of_nat (Nat.min (Z.to_nat n) (length lst - Nat.pred cnt * Z.to_nat n)))
      with r by (unfold r; nia).
    destruct (Z.eq_dec r n) as [Heq|Hne].
    + assert (Hmod : Z.of_nat (length lst) mod n = 0).
      { symmetry. apply (Z.mod_unique _ _ (Z.of_nat (Nat.pred cnt) + 1)); lia. }
      rewrite Hmod. simpl. exact Heq.
    + assert (Hmod : Z.of_nat (length lst) mod n = r).
      { symmetry. apply (Z.mod_unique _ _ (Z.of_nat (Nat.pred cnt))); lia. }
      rewrite Hmod. destruct (Z.eqb_spec r 0); [lia|reflexivity].
Qed.

Lemma divide_partitions_in_order_witness :
  exists chunks : list (list Z),
    Seller.divide [1; 2; 3; 4; 5] 3 = Ret chunks
    /\ concat chunks = [1; 2; 3; 4; 5]
    /\ length chunks = chunk_count 5 3
    /\ (forall k c, chunks !! k = Some c -> c = chunk 3 [1; 2; 3; 4; 5] k)
    /\ (forall k c, chunks !! k = Some c -> (S k < length chunks)%nat ->
                    Z.of_nat (length c) = 3)
    /\ (forall c, last chunks = Some c -> Z.of_nat (length c) = 2).
Proof. apply (divide_partitions_in_order [1; 2; 3; 4; 5] 3). lia. Defined.

(** ** Removal and counting *)

Lemma py_in_In x l : py_in x l = true <-> In x l.
Proof.
  unfold py_in. rewrite List.existsb_exists. split.
  - intros [y [Hy Heq]]. apply String.eqb_eq in Heq. now subst.
  - intros H. exists x. split; [assumption|apply String.eqb_refl].
Qed.

Lemma py_in_false x l : py_in x l = false <-> ~ In x l.
Proof.
  rewrite <- py_in_In. destruct (py_in x l); split; congruence.
Qed.

Lemma py_in_occurrences x l : py_in x l = (0 <? occurrences x l)%nat.
Proof.
  unfold occurrences. destruct (py_in x l) eqn:Hin; symmetry.
  - apply Nat.ltb_lt. apply List.count_occ_In. now apply py_in_In.
  - apply Nat.ltb_ge. apply py_in_false in Hin.
    apply (List.count_occ_not_In String.string_dec) in Hin. lia.
Qed.

Lemma remove_first_in x l :
  py_in x l = true -> remove_first x l = Some (remove1 x l).
Proof.
  unfold remove1. induction l as [|y t IH]; simpl; [discriminate|].
  destruct (String.eqb x y); simpl; [reflexivity|].
  intros H. specialize (IH H). destruct (remove_first x t); simpl in *;
    [reflexivity|discriminate].
Qed.

Lemma remove1_absent x l : py_in x l = false -> remove1 x l = l.
Proof.
  unfold remove1. induction l as [|y t IH]; simpl; [reflexivity|].
  destruct (String.eqb x y); simpl; [discriminate|].
  intros H. specialize (IH H). destruct (remove_first x t); simpl in *;
    [congruence|reflexivity].
Qed.

Lemma remove1_cons x y t :
  remove1 x (y :: t) = if String.eqb x y then t else y :: remove1 x t.
Proof.
  unfold remove1. simpl. destruct (String.eqb x y); [reflexivity|].
  destruct (remove_first x t); reflexivity.
Qed.

Lemma occurrences_cons x y t :
  occurrences x (y :: t)
  = ((if String.eqb x y then 1 else 0) + occurrences x t)%nat.
Proof.
  unfold occurrences. simpl.
  destruct (String.string_dec y x) as [->|Hne].
  - now rewrite String.eqb_refl.
  - destruct (String.eqb_spec x y); [congruence|reflexivity].
Qed.

Lemma occurrences_remove1 x y l :
  occurrences y (remove1 x l)
  = (occurrences y l - (if String.eqb y x then 1 else 0))%nat.
Proof.
  induction l as [|z t IH]; [simpl; lia|].
  rewrite remove1_cons, (occurrences_cons y z t).
  destruct (String.eqb_spec x z) as [->|Hxz].
  - destruct (String.eqb y z); lia.
  - rewrite occurrences_cons, IH.
    destruct (String.eqb_spec y z) as [->|Hyz]; [|lia].
    destruct (String.eqb_spec z x); [congruence|lia].
Qed.

Lemma remove1_permutation x l :
  py_in x l = true -> Permutation l (x :: remove1 x l).
Proof.
  induction l as [|y t IH]; [discriminate|].
  rewrite remove1_cons. unfold py_in in *. simpl.
  destruct (String.eqb_spec x y) as [->|Hne]; [reflexivity|].
  simpl. intros H. rewrite (IH H) at 1. apply perm_swap.
Qed.

(** ** The loop and the counting description agree *)

Lemma taken_matched_after : forall rows earlier ids cur,
  (forall c, occurrences c cur = (occurrences c ids - occurrences c earlier)%nat) ->
  taken cur rows = matched_after earlier ids rows.
Proof.
  induction rows as [|watch rest IH]; intros earlier ids cur Hinv; [reflexivity|].
  cbn [taken matched_after]. rewrite py_in_occurrences, Hinv.
  destruct (Nat.ltb_spec 0 (occurrences (code watch) ids
                            - occurrences (code watch) earlier)) as [Hpos|Hzero].
  - destruct (Nat.ltb_spec (occurrences (code watch) earlier)
                           (occurrences (code watch) ids)); [|lia].
    f_equal. apply IH. intros c.
    rewrite occurrences_remove1, occurrences_cons, Hinv. lia.
  - destruct (Nat.ltb_spec (occurrences (code watch) earlier)
                           (occurrences (code watch) ids)); [lia|].
    apply IH. intros c. rewrite occurrences_cons, Hinv.
    destruct (String.eqb_spec c (code watch)) as [->|]; lia.
Qed.

Lemma taken_matched ids rows : taken ids rows = matched ids rows.
Proof. apply taken_matched_after. intros c. simpl. lia. Qed.

Lemma unmatched_after_ext codes codes' : forall ids earlier,
  (forall c, occurrences c codes = occurrences c codes') ->
  unmatched_after earlier codes ids = unmatched_after earlier codes' ids.
Proof.
  induction ids as [|x rest IH]; intros earlier Hext; [reflexivity|].
  cbn [unmatched_after]. now rewrite Hext, (IH _ Hext).
Qed.

(** One more row with code [c], when the entries passed have already
    outnumbered the rows with that code, changes nothing. *)
Lemma unmatched_after_saturated c codes : forall ids earlier,
  (occurrences c codes < occurrences c earlier)%nat ->
  unmatched_after earlier (c :: codes) ids = unmatched_after earlier codes ids.
Proof.
  induction ids as [|x rest IH]; intros earlier Hsat; [reflexivity|].
  cbn [unmatched_after]. rewrite (occurrences_cons x c codes).
  rewrite IH by (rewrite occurrences_cons; lia).
  destruct (String.eqb_spec x c) as [->|Hne]; [|reflexivity].
  destruct (Nat.ltb_spec (occurrences c earlier) (occurrences c codes)); [lia|].
  destruct (Nat.ltb_spec (occurrences c earlier) (1 + occurrences c codes)); [lia|].
  reflexivity.
Qed.

(** One more row with code [c] removes the first entry [c] still left. *)
Lemma unmatched_after_cons c codes : forall ids earlier,
  (occurrences c earlier <= occurrences c codes)%nat ->
  unmatched_after earlier (c :: codes) ids
  = remove1 c (unmatched_after earlier codes ids).
Proof.
  induction ids as [|x rest IH]; intros earlier Hle; [reflexivity|].
  cbn [unmatched_after]. rewrite (occurrences_cons x c codes).
  destruct (String.eqb_spec x c) as [->|Hne].
  - destruct (Nat.ltb_spec (occurrences c earlier) (occurrences c codes)) as [Hlt|Hge].
    + destruct (Nat.ltb_spec (occurrences c earlier) (1 + occurrences c codes)); [|lia].
      apply IH. rewrite occurrences_cons, String.eqb_refl. lia.
    + destruct (Nat.ltb_spec (occurrences c earlier) (1 + occurrences c codes)); [|lia].
      rewrite remove1_cons, String.eqb_refl.
      apply unmatched_after_saturated.
      rewrite occurrences_cons, String.eqb_refl. lia.
  - simpl. rewrite IH.
    2:{ rewrite occurrences_cons.
        destruct (String.eqb_spec c x); [congruence|lia]. }
    destruct (occurrences x earlier <? occurrences x codes)%nat; [reflexivity|].
    rewrite remove1_cons. destruct (String.eqb_spec c x); [congruence|reflexivity].
Qed.

Lemma unmatched_after_nil : forall ids earlier,
  unmatched_after earlier [] ids = ids.
Proof.
  induction ids as [|x rest IH]; intros earlier; [reflexivity|].
  cbn [unmatched_after]. now rewrite IH.
Qed.

Lemma left_over_unmatched_after ids : forall rows codes,
  left_over (unmatched_after [] codes ids) rows
  = unmatched_after [] (rev (map code rows) ++ codes) ids.
Proof.
  induction rows as [|watch rest IH]; intros codes; [reflexivity|].
  cbn [left_over map rev].
  assert (Hstep : unmatched_after [] (code watch :: codes) ids
                  = remove1 (code watch) (unmatched_after [] codes ids))
    by (apply unmatched_after_cons; simpl; lia).
  rewrite <- List.app_assoc. cbn [app].
  destruct (py_in (code watch) (unmatched_after [] codes ids)) eqn:Hin.
  - rewrite <- Hstep. apply IH.
  - rewrite remove1_absent in Hstep by assumption. rewrite <- Hstep. apply IH.
Qed.

Lemma left_over_unmatched ids rows : left_over ids rows = unmatched rows ids.
Proof.
  unfold unmatched.
  rewrite <- (unmatched_after_nil ids []) at 1.
  rewrite left_over_unmatched_after, List.app_nil_r.
  apply unmatched_after_ext. intros c. unfold occurrences.
  apply Permutation_count_occ. symmetry. apply Permutation_rev.
Qed.

Lemma matched_after_first_covered ids : NoDup ids -> forall rows earlier,
  matched_after earlier ids rows = first_covered_after earlier ids rows.
Proof.
  intros Hnd. apply NoDup_ListNoDup in Hnd.
  induction rows as [|watch rest IH]; intros earlier; [reflexivity|].
  cbn [matched_after first_covered_after]. rewrite IH, !py_in_occurrences.
  pose proof (proj1 (List.NoDup_count_occ String.string_dec ids) Hnd (code watch)) as H1.
  fold (occurrences (code watch) ids) in H1.
  destruct (Nat.ltb_spec (occurrences (code watch) earlier)
                         (occurrences (code watch) ids));
    destruct (Nat.ltb_spec 0 (occurrences (code watch) ids));
    destruct (Nat.ltb_spec 0 (occurrences (code watch) earlier));
    simpl; try reflexivity; lia.
Qed.

Lemma unmatched_after_uncovered codes : forall ids earlier,
  NoDup ids -> (forall x, In x ids -> occurrences x earlier = 0%nat) ->
  unmatched_after earlier codes ids
  = List.filter (fun x => negb (py_in x codes)) ids.
Proof.
  induction ids as [|x rest IH]; intros earlier Hnd Hfresh; [reflexivity|].
  apply NoDup_cons in Hnd as [Hx Hrest]. rewrite list_elem_of_In in Hx.
  cbn [unmatched_after List.filter].
  rewrite py_in_occurrences, (Hfresh x) by (left; reflexivity).
  rewrite IH; [now destruct (0 <? occurrences x codes)%nat|assumption|].
  intros y Hy. rewrite occurrences_cons, (Hfresh y) by (right; assumption).
  destruct (String.eqb_spec y x); [congruence|reflexivity].
Qed.

Lemma matched_first_covered ids rows :
  NoDup ids -> matched ids rows = first_covered ids rows.
Proof. intros H. now apply matched_after_first_covered. Qed.

Lemma unmatched_uncovered ids rows :
  NoDup ids -> unmatched rows ids = uncovered rows ids.
Proof. intros H. now apply unmatched_after_uncovered. Qed.

Lemma taken_left_over_permutation : forall rows cur,
  Permutation (map code (taken cur rows) ++ left_over cur rows) cur.
Proof.
  induction rows as [|watch rest IH]; intros cur; [reflexivity|].
  cbn [taken left_over]. destruct (py_in (code watch) cur) eqn:Hin; [|apply IH].
  cbn [map app]. rewrite IH. symmetry. now apply remove1_permutation.
Qed.

Lemma matched_unmatched_permutation ids rows :
  Permutation (map code (matched ids rows) ++ unmatched rows ids) ids.
Proof.
  rewrite <- taken_matched, <- left_over_unmatched.
  apply taken_left_over_permutation.
Qed.

(** ** The loop of [create_stocks] on the heap *)

Lemma fold_left_append {A B} (f : A -> B) : forall (l : list A) (acc : list B),
  fold_left (fun acc x => acc ++ [f x]) l acc = acc ++ map f l.
Proof.
  induction l as [|x t IH]; intros acc; simpl.
  - now rewrite List.app_nil_r.
  - now rewrite IH, <- List.app_assoc.
Qed.

Lemma world_insert_same {E} (w : world E) r l :
  heap w !! r = Some l -> World (<[r := l]> (heap w)) (log w) = w.
Proof. intros H. destruct w. simpl in *. now rewrite list_insert_id. Qed.

Lemma quantity_raises ui watch e :
  quantity ui watch = Raise e -> e = ValueError \/ e = TypeError.
Proof.
  unfold quantity, int.
  destruct (String.eqb _ ">10"); [discriminate|].
  destruct (String.eqb _ "1"); [discriminate|].
  destruct (get "Количество" watch); [| |destruct (int_of_text ui s)];
    intros [= <-]; auto.
Qed.

Section Stock_loop_facts.

Context {E R : Type}.
Variable unicode_int : string -> option Z.
Variable mk : string -> Z -> R.
Variable offer_ids : loc.

Let record (watch : row) : R := mk (code watch) (quantity_value unicode_int watch).
Let step := stock_step (E := E) unicode_int mk offer_ids.

Lemma stock_step_skip stocks watch (w : world E) cur :
  heap w !! offer_ids = Some cur -> py_in (code watch) cur = false ->
  step stocks watch w = (Ret stocks, w).
Proof.
  intros Hcur Hin. unfold step, stock_step, bind, contents.
  rewrite Hcur. simpl. fold (code watch). now rewrite Hin.
Qed.

Lemma stock_step_take stocks watch (w : world E) cur q :
  heap w !! offer_ids = Some cur -> py_in (code watch) cur = true ->
  quantity unicode_int watch = Ret q ->
  step stocks watch w
  = (Ret (stocks ++ [mk (code watch) q]),
     World (<[offer_ids := remove1 (code watch) cur]> (heap w)) (log w)).
Proof.
  intros Hcur Hin Hq. unfold step, stock_step, bind, contents, list_remove.
  rewrite Hcur. simpl. fold (code watch). rewrite Hin.
  unfold quantity in Hq.
  destruct (String.eqb _ ">10");
    [|destruct (String.eqb _ "1")]; unfold ret, lift;
    rewrite ?Hq; try injection Hq as <-;
    rewrite Hcur; simpl; now rewrite (remove_first_in _ _ Hin).
Qed.

Lemma stock_step_raise stocks watch (w : world E) cur e :
  heap w !! offer_ids = Some cur -> py_in (code watch) cur = true ->
  quantity unicode_int watch = Raise e ->
  step stocks watch w = (Raise e, w).
Proof.
  intros Hcur Hin Hq. unfold step, stock_step, bind, contents.
  rewrite Hcur. simpl. fold (code watch). rewrite Hin.
  unfold quantity in Hq.
  destruct (String.eqb _ ">10"); [discriminate|].
  destruct (String.eqb _ "1"); [discriminate|].
  unfold lift. now rewrite Hq.
Qed.

Lemma for_fold_stock_ret : forall rows stocks (w : world E) cur,
  heap w !! offer_ids = Some cur ->
  Forall (fun watch => is_ret (quantity unicode_int watch) = true) (taken cur rows) ->
  for_fold rows step stocks w
  = (Ret (stocks ++ map record (taken cur rows)),
     World (<[offer_ids := left_over cur rows]> (heap w)) (log w)).
Proof.
  induction rows as [|watch rest IH]; intros stocks w cur Hcur Hok.
  - simpl. unfold ret. now rewrite List.app_nil_r, world_insert_same.
  - cbn [for_fold taken left_over] in *. unfold bind at 1.
    destruct (py_in (code watch) cur) eqn:Hin.
    + inversion Hok as [|? ? Hq Hrest]; subst.
      destruct (quantity unicode_int watch) as [q|] eqn:Hqv; [|discriminate].
      rewrite (stock_step_take _ _ _ _ _ Hcur Hin Hqv).
      rewrite (IH _ _ (remove1 (code watch) cur)); [|simpl|assumption].
      2:{ apply list_lookup_insert_eq. now apply lookup_lt_Some in Hcur. }
      simpl. rewrite list_insert_insert_eq, <- List.app_assoc.
      unfold record at 2, quantity_value. now rewrite Hqv.
    + rewrite (stock_step_skip _ _ _ _ Hcur Hin). now apply IH.
Qed.

Lemma for_fold_stock_raise : forall rows stocks (w : world E) cur good bad more e,
  heap w !! offer_ids = Some cur ->
  taken cur rows = good ++ bad :: more ->
  Forall (fun watch => is_ret (quantity unicode_int watch) = true) good ->
  quantity unicode_int bad = Raise e ->
  exists h, for_fold rows step stocks w = (Raise e, World h (log w)).
Proof.
  induction rows as [|watch rest IH]; intros stocks w cur good bad more e
    Hcur Htaken Hgood Hbad.
  - destruct good; discriminate.
  - cbn [for_fold taken] in *. unfold bind at 1.
    destruct (py_in (code watch) cur) eqn:Hin.
    + destruct good as [|g good].
      * injection Htaken as Hb _. subst bad.
        rewrite (stock_step_raise _ _ _ _ _ Hcur Hin Hbad).
        exists (heap w). now destruct w.
      * injection Htaken as Hg Htaken. subst g.
        inversion Hgood as [|? ? Hq Hrest]; subst.
        destruct (quantity unicode_int watch) as [q|] eqn:Hqv; [|discriminate].
        rewrite (stock_step_take _ _ _ _ _ Hcur Hin Hqv).
        apply (IH _ (World (<[offer_ids := remove1 (code watch) cur]> (heap w))
                           (log w))
                  (remove1 (code watch) cur) good bad more e); [|assumption..].
        simpl. apply list_lookup_insert_eq. now apply lookup_lt_Some in Hcur.
    + rewrite (stock_step_skip _ _ _ _ Hcur Hin).
      eapply IH; eassumption.
Qed.

(** The run that returns. *)
Lemma stock_loop_ret rows (w : world E) ids :
  heap w !! offer_ids = Some ids ->
  Forall (fun watch => is_ret (quantity unicode_int watch) = true) (matched ids rows) ->
  stock_loop unicode_int mk rows offer_ids w
  = (Ret (map record (matched ids rows)
          ++ map (fun x => mk x 0) (unmatched rows ids)),
     World (<[offer_ids := unmatched rows ids]> (heap w)) (log w)).
Proof.
  intros Hids Hok. rewrite <- taken_matched in Hok.
  unfold stock_loop, bind. fold step.
  rewrite (for_fold_stock_ret _ _ _ _ Hids Hok).
  unfold contents, ret. simpl.
  rewrite list_lookup_insert_eq by (now apply lookup_lt_Some in Hids).
  simpl. now rewrite fold_left_append, taken_matched, left_over_unmatched.
Qed.

(** The run that raises. *)
Lemma stock_loop_raise rows (w : world E) ids :
  heap w !! offer_ids = Some ids ->
  Exists (fun watch => is_ret (quantity unicode_int watch) = false) (matched ids rows) ->
  exists e h,
    (e = ValueError \/ e = TypeError)
    /\ stock_loop unicode_int mk rows offer_ids w = (Raise e, World h (log w)).
Proof.
  intros Hids Hbad. rewrite <- taken_matched in Hbad.
  assert (Hsplit : exists good bad more e,
             taken ids rows = good ++ bad :: more
             /\ Forall (fun watch => is_ret (quantity unicode_int watch) = true) good
             /\ quantity unicode_int bad = Raise e).
  { clear Hids. induction Hbad as [bad more Hb|r more Hb IH].
    - destruct (quantity unicode_int bad) as [|e] eqn:Hq; [discriminate|].
      exists [], bad, more, e. auto.
    - destruct (quantity unicode_int r) as [q|e] eqn:Hq.
      + destruct IH as (good & bad & more' & e & -> & Hgood & Hq').
        exists (r :: good), bad, more', e. split; [reflexivity|].
        split; [|assumption]. constructor; [now rewrite Hq|assumption].
      + exists [], r, more, e. auto. }
  destruct Hsplit as (good & bad & more & e & Htaken & Hgood & Hq).
  destruct (for_fold_stock_raise rows [] w ids good bad more e
              Hids Htaken Hgood Hq) as [h Hrun].
  exists e, h. split; [now apply quantity_raises in Hq|].
  unfold stock_loop, bind. fold step. now rewrite Hrun.
Qed.

End Stock_loop_facts.

Lemma seller_create_stocks_loop ui rows l :
  Seller.create_stocks ui rows l
  = stock_loop ui Seller.Stock.Make rows l.
Proof. reflexivity. Qed.

Lemma market_create_stocks_loop ui utcnow rows l warehouse (w : world Market.event) :
  Market.create_stocks ui utcnow rows l warehouse w
  = stock_loop ui (fun c q => Market.Stock.Make c warehouse
                                [Market.Stock.Item q "FIT" (utcnow (log w))])
               rows l w.
Proof. reflexivity. Qed.

(** ** The loop of [create_prices] on the heap *)

Lemma traverse_ret {A B} (f : A -> outcome B) (g : A -> B) (l : list A) :
  Forall (fun x => f x = Ret (g x)) l -> traverse f l = Ret (map g l).
Proof.
  induction 1 as [|x t Hx _ IH]; [reflexivity|].
  cbn [traverse map]. now rewrite Hx, IH.
Qed.

Section Price_loop_facts.

Context {E R : Type}.
Variable price_of : row -> outcome R.
Variable offer_ids : loc.
Variable step : list R -> row -> M E (list R).

Hypothesis step_skip : forall prices watch (w : world E),
  py_in (code watch) (default [] (heap w !! offer_ids)) = false ->
  step prices watch w = (Ret prices, w).

Hypothesis step_take : forall prices watch (w : world E),
  py_in (code watch) (default [] (heap w !! offer_ids)) = true ->
  step prices watch w
  = (match price_of watch with
     | Ret p => Ret (prices ++ [p])
     | Raise e => Raise e
     end, w).

Lemma for_fold_price : forall rows prices (w : world E),
  for_fold rows step prices w
  = (match traverse price_of (covered (default [] (heap w !! offer_ids)) rows) with
     | Ret ps => Ret (prices ++ ps)
     | Raise e => Raise e
     end, w).
Proof using step_skip step_take.
  induction rows as [|watch rest IH]; intros prices w.
  - simpl. unfold ret. now rewrite List.app_nil_r.
  - cbn [for_fold covered List.filter]. unfold bind.
    destruct (py_in (code watch) (default [] (heap w !! offer_ids))) eqn:Hin.
    + rewrite (step_take _ _ _ Hin). cbn [traverse].
      destruct (price_of watch) as [p|e]; [|reflexivity].
      rewrite IH. unfold covered. simpl.
      destruct (traverse price_of _); [|reflexivity].
      now rewrite <- List.app_assoc.
    + rewrite (step_skip _ _ _ Hin). apply IH.
Qed.

End Price_loop_facts.

Lemma seller_create_prices_traverse rows l (w : world Seller.event) :
  Seller.create_prices rows l w
  = (traverse seller_price_of (covered (default [] (heap w !! l)) rows), w).
Proof.
  unfold Seller.create_prices.
  rewrite (for_fold_price seller_price_of l).
  - now destruct (traverse seller_price_of _).
  - intros prices watch w' Hin. unfold bind, contents. fold (code watch).
    now rewrite Hin.
  - intros prices watch w' Hin. unfold bind, contents. fold (code watch).
    rewrite Hin. unfold lift, seller_price_of.
    now destruct (Seller.price_conversion (get "Цена" watch)).
Qed.

Lemma market_create_prices_traverse ui rows l (w : world Market.event) :
  Market.create_prices ui rows l w
  = (traverse (market_price_of ui) (covered (default [] (heap w !! l)) rows), w).
Proof.
  unfold Market.create_prices.
  rewrite (for_fold_price (market_price_of ui) l).
  - now destruct (traverse (market_price_of ui) _).
  - intros prices watch w' Hin. unfold bind, contents. fold (code watch).
    now rewrite Hin.
  - intros prices watch w' Hin. unfold bind, contents. fold (code watch).
    rewrite Hin. unfold lift, market_price_of.
    destruct (Seller.price_conversion (get "Цена" watch)) as [converted|];
      [|reflexivity].
    simpl. now destruct (int_of_text ui converted).
Qed.

(** ** Reading a text of digits as a number *)

Lemma is_digit_ascii c : is_digit c = true -> is_ascii c = true.
Proof.
  unfold is_digit, is_ascii. intros H. apply andb_prop in H as [_ H].
  apply Nat.leb_le in H. apply Nat.ltb_lt. lia.
Qed.

Lemma is_digit_not_space c : is_digit c = true -> is_space c = false.
Proof.
  unfold is_digit, is_space. intros H. apply andb_prop in H as [H1 H2].
  apply Nat.leb_le in H1, H2.
  destruct (Nat.leb_spec 9 (nat_of_ascii c)), (Nat.leb_spec (nat_of_ascii c) 13),
    (Nat.eqb_spec (nat_of_ascii c) 32);
    simpl; try reflexivity; lia.
Qed.

(** The separators 28 to 31 are no blanks for [int]. *)
Example int_rejects_separator ui :
  int ui (PyStr (String (ascii_of_nat 28) "5")) = Raise ValueError
  /\ int ui (PyStr (String (ascii_of_nat 9) "5 ")) = Ret 5.
Proof. split; reflexivity. Qed.

Lemma digit_only_cons c t :
  digit_only (String c t) <-> is_digit c = true /\ digit_only t.
Proof.
  unfold digit_only. simpl. split.
  - inversion 1; auto.
  - intros [Hc Ht]. now constructor.
Qed.

Lemma digit_only_all_ascii s : digit_only s -> all_ascii s = true.
Proof.
  induction s as [|c t IH]; [reflexivity|].
  rewrite digit_only_cons. intros [Hc Ht]. simpl.
  now rewrite (is_digit_ascii _ Hc), IH.
Qed.

Lemma digit_only_rstrip s : digit_only s -> rstrip s = s.
Proof.
  induction s as [|c t IH]; [reflexivity|].
  rewrite digit_only_cons. intros [Hc Ht]. simpl. rewrite (IH Ht).
  destruct t; [now rewrite (is_digit_not_space _ Hc)|reflexivity].
Qed.

Lemma digit_only_strip s : digit_only s -> strip s = s.
Proof.
  intros H. unfold strip. destruct s as [|c t]; [reflexivity|].
  pose proof H as H'. apply digit_only_cons in H' as [Hc _].
  cbn [lstrip]. rewrite (is_digit_not_space _ Hc). now apply digit_only_rstrip.
Qed.

Lemma digits_value_digit_only : forall s acc,
  digit_only s ->
  digits_value s acc true
  = Some (fold_left (fun acc c => 10 * acc + digit_value c)
                    (list_ascii_of_string s) acc).
Proof.
  induction s as [|c t IH]; intros acc; [reflexivity|].
  rewrite digit_only_cons. intros [Hc Ht]. simpl. rewrite Hc. now apply IH.
Qed.

Lemma signed_value_digit c t :
  is_digit c = true ->
  signed_value (String c t) = digits_value (String c t) 0 false.
Proof.
  destruct c as [[] [] [] [] [] [] [] []]; try discriminate; reflexivity.
Qed.

Lemma int_digit_only ui s :
  digit_only s -> s <> "" -> int ui (PyStr s) = Ret (number_of s).
Proof.
  intros Hs Hne. unfold int, int_of_text.
  rewrite (digit_only_all_ascii _ Hs), (digit_only_strip _ Hs).
  destruct s as [|c t]; [congruence|].
  pose proof Hs as Hs'. apply digit_only_cons in Hs' as [Hc Ht].
  rewrite (signed_value_digit _ _ Hc). cbn [digits_value]. rewrite Hc.
  now rewrite (digits_value_digit_only _ _ Ht).
Qed.

Lemma price_conversion_text watch s :
  price_text watch = Some s ->
  Seller.price_conversion (get "Цена" watch) = Ret (parsed_price watch).
Proof.
  unfold price_text, parsed_price. intros H.
  destruct (get "Цена" watch) as [| |s'] eqn:Hget; try discriminate.
  unfold price_text. rewrite Hget. simpl default.
  apply price_conversion_of_text.
Qed.

Lemma seller_price_of_text watch :
  has_text_price watch -> seller_price_of watch = Ret (seller_price watch).
Proof.
  intros [s Hs]. unfold seller_price_of.
  now rewrite (price_conversion_text _ _ Hs).
Qed.

Lemma market_price_of_digits ui watch :
  has_digit_price watch -> market_price_of ui watch = Ret (market_price watch).
Proof.
  intros [[s Hs] Hne]. unfold market_price_of.
  rewrite (price_conversion_text _ _ Hs). cbn [obind].
  rewrite int_digit_only; [reflexivity| |assumption].
  apply digits_of_digit_only.
Qed.

(** ** The stock reconciler *)

Lemma quantities_ret_or_raise ui (l : list row) :
  Forall (fun watch => is_ret (quantity ui watch) = true) l
  \/ Exists (fun watch => is_ret (quantity ui watch) = false) l.
Proof.
  induction l as [|watch rest [IH|IH]].
  - left. constructor.
  - destruct (is_ret (quantity ui watch)) eqn:Hq.
    + left. now constructor.
    + right. now constructor.
  - right. now constructor.
Qed.

Lemma malformed_quantity_raises ui watch :
  malformed_quantity ui watch <-> is_ret (quantity ui watch) = false.
Proof.
  unfold malformed_quantity, quantity.
  destruct (String.eqb_spec (str (get "Количество" watch)) ">10") as [->|H10].
  { split; [intros [H _]; congruence|discriminate]. }
  destruct (String.eqb_spec (str (get "Количество" watch)) "1") as [->|H1].
  { split; [intros (_ & H & _); congruence|discriminate]. }
  tauto.
Qed.

Lemma seller_create_stocks_ret ui rows ids l (w : world Seller.event) :
  heap w !! l = Some ids ->
  Forall (fun watch => is_ret (quantity ui watch) = true) (matched ids rows) ->
  Seller.create_stocks ui rows l w
  = (Ret (seller_stocks ui rows ids),
     World (<[l := unmatched rows ids]> (heap w)) (log w)).
Proof.
  intros Hl Hok. rewrite seller_create_stocks_loop.
  now rewrite (stock_loop_ret ui _ l rows w ids Hl Hok).
Qed.

Lemma seller_create_stocks_raise ui rows ids l (w : world Seller.event) :
  heap w !! l = Some ids ->
  Exists (fun watch => is_ret (quantity ui watch) = false) (matched ids rows) ->
  exists e h,
    (e = ValueError \/ e = TypeError)
    /\ Seller.create_stocks ui rows l w = (Raise e, World h (log w)).
Proof.
  intros Hl Hbad. rewrite seller_create_stocks_loop.
  now apply stock_loop_raise with (ids := ids).
Qed.

Lemma market_create_stocks_ret ui utcnow rows ids l warehouse (w : world Market.event) :
  heap w !! l = Some ids ->
  Forall (fun watch => is_ret (quantity ui watch) = true) (matched ids rows) ->
  Market.create_stocks ui utcnow rows l warehouse w
  = (Ret (market_stocks ui warehouse (utcnow (log w)) rows ids),
     World (<[l := unmatched rows ids]> (heap w)) (log w)).
Proof.
  intros Hl Hok. rewrite market_create_stocks_loop.
  now rewrite (stock_loop_ret ui _ l rows w ids Hl Hok).
Qed.

Lemma market_create_stocks_raise ui utcnow rows ids l warehouse (w : world Market.event) :
  heap w !! l = Some ids ->
  Exists (fun watch => is_ret (quantity ui watch) = false) (matched ids rows) ->
  exists e h,
    (e = ValueError \/ e = TypeError)
    /\ Market.create_stocks ui utcnow rows l warehouse w = (Raise e, World h (log w)).
Proof.
  intros Hl Hbad. rewrite market_create_stocks_loop.
  now apply stock_loop_raise with (ids := ids).
Qed.

(** A run of [create_stocks] that returns is a run without a malformed
    quantity on a matched row. *)
Lemma seller_create_stocks_inv ui rows ids l (w w' : world Seller.event) stocks :
  heap w !! l = Some ids ->
  Seller.create_stocks ui rows l w = (Ret stocks, w') ->
  Forall (fun watch => is_ret (quantity ui watch) = true) (matched ids rows)
  /\ stocks = seller_stocks ui rows ids
  /\ w' = World (<[l := unmatched rows ids]> (heap w)) (log w).
Proof.
  intros Hl Hrun.
  destruct (quantities_ret_or_raise ui (matched ids rows)) as [Hok|Hbad].
  - rewrite (seller_create_stocks_ret _ _ _ _ _ Hl Hok) in Hrun.
    injection Hrun as <- <-. auto.
  - destruct (seller_create_stocks_raise _ _ _ _ _ Hl Hbad) as (e & h & _ & Hr).
    rewrite Hr in Hrun. discriminate.
Qed.

Lemma seller_stocks_offer_ids ui rows ids :
  map Seller.Stock.offer_id (seller_stocks ui rows ids)
  = map code (matched ids rows) ++ unmatched rows ids.
Proof.
  unfold seller_stocks. rewrite List.map_app, !List.map_map. simpl.
  now rewrite List.map_id.
Qed.

Lemma market_stocks_skus ui warehouse date rows ids :
  map Market.Stock.sku (market_stocks ui warehouse date rows ids)
  = map code (matched ids rows) ++ unmatched rows ids.
Proof.
  unfold market_stocks. rewrite List.map_app, !List.map_map. simpl.
  now rewrite List.map_id.
Qed.

(** C1, as amended.  For every catalog list and every feed whose matched
    rows all carry a quantity the rule has a value for, [create_stocks]
    (on either marketplace) returns one record per catalog entry: first,
    in feed order, a record for each row that finds its code in what
    remains of the catalog, with the quantity of the rule ([">10"] is 100,
    ["1"] is 0, anything else its base 10 value), then, in catalog order, a
    record with quantity 0 for each entry left.  When the catalog has no
    repetition the matched rows are the first rows of each code of the
    catalog, and the entries left are the ids on no row. *)
Theorem create_stocks_one_record_per_entry ui (rows : list row) (ids : list string) :
  Forall (fun watch => is_ret (quantity ui watch) = true) (matched ids rows) ->
  (forall l (w : world Seller.event),
      heap w !! l = Some ids ->
      Seller.create_stocks ui rows l w
      = (Ret (seller_stocks ui rows ids),
         World (<[l := unmatched rows ids]> (heap w)) (log w)))
  /\ (forall utcnow warehouse l (w : world Market.event),
         heap w !! l = Some ids ->
         Market.create_stocks ui utcnow rows l warehouse w
         = (Ret (market_stocks ui warehouse (utcnow (log w)) rows ids),
            World (<[l := unmatched rows ids]> (heap w)) (log w)))
  /\ Permutation (map Seller.Stock.offer_id (seller_stocks ui rows ids)) ids
  /\ (forall warehouse date,
         Permutation (map Market.Stock.sku (market_stocks ui warehouse date rows ids))
                     ids)
  /\ (forall watch,
         (str (get "Количество" watch) = ">10" -> quantity ui watch = Ret 100)
         /\ (str (get "Количество" watch) = "1" -> quantity ui watch = Ret 0)
         /\ (str (get "Количество" watch) <> ">10" ->
             str (get "Количество" watch) <> "1" ->
             quantity ui watch = int ui (get "Количество" watch)))
  /\ (NoDup ids ->
      matched ids rows = first_covered ids rows
      /\ unmatched rows ids = uncovered rows ids).
Proof.
  intros Hok. repeat split.
  - intros l w Hl. now apply seller_create_stocks_ret.
  - intros utcnow warehouse l w Hl. now apply market_create_stocks_ret.
  - rewrite seller_stocks_offer_ids. apply matched_unmatched_permutation.
  - intros warehouse date. rewrite market_stocks_skus.
    apply matched_unmatched_permutation.
  - intros H. unfold quantity. now rewrite H.
  - intros H. unfold quantity. now rewrite H.
  - intros H10 H1. unfold quantity.
    destruct (String.eqb_spec (str (get "Количество" watch)) ">10"); [congruence|].
    destruct (String.eqb_spec (str (get "Количество" watch)) "1"); [congruence|].
    reflexivity.
  - now apply matched_first_covered.
  - now apply unmatched_uncovered.
Qed.

Lemma create_stocks_one_record_per_entry_witness :
  Seller.create_stocks (fun _ => None)
    [feed_row (PyStr "123") (PyStr "5") (PyStr "5'990.00 руб.");
     feed_row (PyInt 987) (PyStr ">10") (PyStr "10'990.00 руб.")]
    0%nat (World [["123"; "789"]] [])
  = (Ret [Seller.Stock.Make "123" 5; Seller.Stock.Make "789" 0],
     World [["789"]] []).
Proof.
  refine (proj1 (create_stocks_one_record_per_entry (fun _ => None)
            [feed_row (PyStr "123") (PyStr "5") (PyStr "5'990.00 руб.");
             feed_row (PyInt 987) (PyStr ">10") (PyStr "10'990.00 руб.")]
            ["123"; "789"] _) 0%nat (World [["123"; "789"]] []) _).
  - apply List.Forall_cons; [reflexivity|apply List.Forall_nil].
  - reflexivity.
Defined.

(** The run the claim as stated leaves out: a matched row with a quantity
    that is no integer literal makes [create_stocks] raise, so that no
    list is returned. *)
Lemma create_stocks_one_record_per_entry_counterexample :
  ~ exists stocks w',
      Seller.create_stocks (fun _ => None)
        [feed_row (PyStr "123") (PyStr "abc") (PyStr "5'990.00 руб.")]
        0%nat (World [["123"]] [])
      = (Ret stocks, w').
Proof. intros (stocks & w' & H). vm_compute in H. discriminate. Qed.

Lemma market_create_stocks_inv ui utcnow rows ids l warehouse
    (w w' : world Market.event) stocks :
  heap w !! l = Some ids ->
  Market.create_stocks ui utcnow rows l warehouse w = (Ret stocks, w') ->
  Forall (fun watch => is_ret (quantity ui watch) = true) (matched ids rows)
  /\ stocks = market_stocks ui warehouse (utcnow (log w)) rows ids
  /\ w' = World (<[l := unmatched rows ids]> (heap w)) (log w).
Proof.
  intros Hl Hrun.
  destruct (quantities_ret_or_raise ui (matched ids rows)) as [Hok|Hbad].
  - rewrite (market_create_stocks_ret _ _ _ _ _ _ _ Hl Hok) in Hrun.
    injection Hrun as <- <-. auto.
  - destruct (market_create_stocks_raise _ utcnow _ _ _ warehouse _ Hl Hbad)
      as (e & h & _ & Hr).
    rewrite Hr in Hrun. discriminate.
Qed.

(** ** Which row gives an id its quantity *)

Lemma occurrences_app x l1 l2 :
  occurrences x (l1 ++ l2) = (occurrences x l1 + occurrences x l2)%nat.
Proof. apply List.count_occ_app. Qed.

Lemma occurrences_rev x l : occurrences x (rev l) = occurrences x l.
Proof. apply List.count_occ_rev. Qed.

Lemma occurrences_absent x l : ~ In x l -> occurrences x l = 0%nat.
Proof. apply List.count_occ_not_In. Qed.

Lemma matched_after_app ids : forall pre post earlier,
  matched_after earlier ids (pre ++ post)
  = matched_after earlier ids pre
    ++ matched_after (rev (map code pre) ++ earlier) ids post.
Proof.
  induction pre as [|watch pre IH]; intros post earlier; [reflexivity|].
  cbn [app matched_after map rev]. rewrite IH, <- List.app_assoc. cbn [app].
  now destruct (occurrences (code watch) earlier <? occurrences (code watch) ids)%nat.
Qed.

Lemma matched_after_incl ids : forall rows earlier watch,
  In watch (matched_after earlier ids rows) -> In watch rows.
Proof.
  induction rows as [|r rest IH]; intros earlier watch; [intros []|].
  cbn [matched_after].
  destruct (occurrences (code r) earlier <? occurrences (code r) ids)%nat.
  - intros [->|H]; [now left|right; eauto].
  - intros H. right. eauto.
Qed.

Lemma with_code_length x (l : list row) :
  length (List.filter (fun watch => String.eqb (code watch) x) l)
  = occurrences x (map code l).
Proof.
  induction l as [|watch rest IH]; [reflexivity|].
  cbn [List.filter map]. rewrite occurrences_cons, String.eqb_sym.
  destruct (String.eqb x (code watch)); simpl; lia.
Qed.

Lemma first_row_matched ids x pre watch post :
  (0 < occurrences x ids)%nat -> code watch = x -> ~ In x (map code pre) ->
  In watch (matched ids (pre ++ watch :: post)).
Proof.
  intros Hx Hcode Hpre. unfold matched. rewrite matched_after_app.
  apply List.in_or_app. right. cbn [matched_after]. rewrite Hcode.
  rewrite List.app_nil_r, occurrences_rev, (occurrences_absent _ _ Hpre).
  destruct (Nat.ltb_spec 0 (occurrences x ids)); [now left|lia].
Qed.

(** With one entry [x] in the catalog, the first row with code [x] is the
    only matched row with that code, and no entry [x] is left. *)
Lemma first_row_only ids x pre watch post :
  occurrences x ids = 1%nat -> code watch = x -> ~ In x (map code pre) ->
  List.filter (fun r => String.eqb (code r) x) (matched ids (pre ++ watch :: post))
  = [watch]
  /\ ~ In x (unmatched (pre ++ watch :: post) ids).
Proof.
  intros Hx Hcode Hpre. set (rows := pre ++ watch :: post).
  pose proof (first_row_matched ids x pre watch post ltac:(lia) Hcode Hpre) as Hin.
  fold rows in Hin.
  assert (Hf : In watch (List.filter (fun r => String.eqb (code r) x) (matched ids rows))).
  { apply List.filter_In. split; [assumption|]. rewrite Hcode. apply String.eqb_refl. }
  pose proof (proj1 (Permutation_count_occ String.string_dec _ _)
                (matched_unmatched_permutation ids rows) x) as Hcount.
  fold (occurrences x (map code (matched ids rows) ++ unmatched rows ids)) in Hcount.
  fold (occurrences x ids) in Hcount.
  rewrite occurrences_app, <- with_code_length, Hx in Hcount.
  destruct (List.filter (fun r => String.eqb (code r) x) (matched ids rows))
    as [|r1 [|r2 more]] eqn:Hfilter.
  - destruct Hf.
  - destruct Hf as [->|[]]. split; [reflexivity|].
    intros Habs. apply (List.count_occ_In String.string_dec) in Habs.
    unfold occurrences in Hcount. simpl in Hcount. lia.
  - simpl in Hcount. lia.
Qed.

(** C5, as amended.  For every catalog id that the catalog lists once
    and that is the code of feed rows, the one stock record of that id
    carries the quantity of the first such row: the first match wins, the
    later rows with that code are passed over.  (Both marketplaces; the
    run is one that returns.) *)
Theorem create_stocks_first_row_wins ui (rows : list row) (ids : list string)
    (x : string) (pre : list row) (watch : row) (post : list row) :
  occurrences x ids = 1%nat ->
  rows = pre ++ watch :: post ->
  code watch = x ->
  ~ In x (map code pre) ->
  (forall l (w w' : world Seller.event) stocks,
      heap w !! l = Some ids ->
      Seller.create_stocks ui rows l w = (Ret stocks, w') ->
      exists q,
        quantity ui watch = Ret q
        /\ List.filter (fun s => String.eqb (Seller.Stock.offer_id s) x) stocks
           = [Seller.Stock.Make x q])
  /\ (forall utcnow warehouse l (w w' : world Market.event) stocks,
         heap w !! l = Some ids ->
         Market.create_stocks ui utcnow rows l warehouse w = (Ret stocks, w') ->
         exists q,
           quantity ui watch = Ret q
           /\ List.filter (fun s => String.eqb (Market.Stock.sku s) x) stocks
              = [Market.Stock.Make x warehouse
                   [Market.Stock.Item q "FIT" (utcnow (log w))]]).
Proof.
  intros Hx -> Hcode Hpre.
  destruct (first_row_only ids x pre watch post Hx Hcode Hpre) as [Hfirst Hleft].
  pose proof Hfirst as Hfirst'.
  assert (Hzero : List.filter (fun y => String.eqb y x)
                              (unmatched (pre ++ watch :: post) ids) = []).
  { clear Hfirst.
    destruct (List.filter (fun y => String.eqb y x)
                          (unmatched (pre ++ watch :: post) ids))
      as [|y more] eqn:Hf; [reflexivity|].
    assert (Hy : In y (y :: more)) by now left.
    rewrite <- Hf in Hy. apply List.filter_In in Hy as [Hy Heq].
    apply String.eqb_eq in Heq. subst y. contradiction. }
  assert (Hq : forall l0 : list row,
             Forall (fun r => is_ret (quantity ui r) = true) l0 ->
             In watch l0 -> exists q, quantity ui watch = Ret q).
  { intros l0 Hall Hin. rewrite List.Forall_forall in Hall.
    specialize (Hall _ Hin). destruct (quantity ui watch) as [q|]; [eauto|discriminate]. }
  pose proof (first_row_matched ids x pre watch post ltac:(lia) Hcode Hpre) as Hin.
  split.
  - intros l w w' stocks Hl Hrun.
    apply (seller_create_stocks_inv _ _ _ _ _ _ _ Hl) in Hrun as (Hok & -> & _).
    destruct (Hq _ Hok Hin) as [q Hqv]. exists q. split; [assumption|].
    unfold seller_stocks. rewrite List.filter_app.
    rewrite !(List.filter_map_swap). simpl.
    rewrite Hfirst', Hzero. simpl. unfold quantity_value. now rewrite Hqv, Hcode.
  - intros utcnow warehouse l w w' stocks Hl Hrun.
    apply (market_create_stocks_inv _ _ _ _ _ _ _ _ _ Hl) in Hrun as (Hok & -> & _).
    destruct (Hq _ Hok Hin) as [q Hqv]. exists q. split; [assumption|].
    unfold market_stocks. rewrite List.filter_app.
    rewrite !(List.filter_map_swap). simpl.
    rewrite Hfirst', Hzero. simpl. unfold quantity_value. now rewrite Hqv, Hcode.
Qed.

Lemma create_stocks_first_row_wins_witness :
  exists q,
    quantity (fun _ => None) (feed_row (PyStr "123") (PyStr "5") PyNone) = Ret q
    /\ List.filter (fun s => String.eqb (Seller.Stock.offer_id s) "123")
                   [Seller.Stock.Make "123" 5]
       = [Seller.Stock.Make "123" q].
Proof.
  refine (proj1 (create_stocks_first_row_wins (fun _ => None)
            [feed_row (PyStr "123") (PyStr "5") PyNone;
             feed_row (PyStr "123") (PyStr "7") PyNone]
            ["123"] "123" []
            (feed_row (PyStr "123") (PyStr "5") PyNone)
            [feed_row (PyStr "123") (PyStr "7") PyNone] _ _ _ _)
          0%nat (World [["123"]] []) (World [[]] [])
          [Seller.Stock.Make "123" 5] _ _).
  - reflexivity.
  - reflexivity.
  - reflexivity.
  - simpl. intros [].
  - reflexivity.
  - vm_compute. reflexivity.
Defined.

(** The claim as stated fails: of two rows with the code of the one
    catalog entry, it is the first that gives the quantity, not the last. *)
Lemma create_stocks_first_row_wins_counterexample :
  exists stocks w',
    Seller.create_stocks (fun _ => None)
      [feed_row (PyStr "123") (PyStr "5") PyNone;
       feed_row (PyStr "123") (PyStr "7") PyNone]
      0%nat (World [["123"]] [])
    = (Ret stocks, w')
    /\ quantity (fun _ => None) (feed_row (PyStr "123") (PyStr "7") PyNone) = Ret 7
    /\ stocks = [Seller.Stock.Make "123" 5]
    /\ ~ In (Seller.Stock.Make "123" 7) stocks.
Proof.
  eexists. eexists. split; [vm_compute; reflexivity|].
  split; [reflexivity|]. split; [reflexivity|].
  intros [H|[]]. discriminate.
Qed.

(** ** The price reconciler *)

Lemma covered_codes ids rows watch :
  In watch (covered ids rows) -> In (code watch) ids /\ In watch rows.
Proof.
  unfold covered. intros H. apply List.filter_In in H as [Hrow Hin].
  now apply py_in_In in Hin.
Qed.

Lemma seller_create_prices_ret rows ids l (w : world Seller.event) :
  heap w !! l = Some ids ->
  Forall has_text_price (covered ids rows) ->
  Seller.create_prices rows l w = (Ret (map seller_price (covered ids rows)), w).
Proof.
  intros Hl Hok. rewrite seller_create_prices_traverse, Hl. simpl default.
  rewrite (traverse_ret _ seller_price); [reflexivity|].
  eapply List.Forall_impl; [|exact Hok]. apply seller_price_of_text.
Qed.

Lemma market_create_prices_ret ui rows ids l (w : world Market.event) :
  heap w !! l = Some ids ->
  Forall has_digit_price (covered ids rows) ->
  Market.create_prices ui rows l w = (Ret (map market_price (covered ids rows)), w).
Proof.
  intros Hl Hok. rewrite market_create_prices_traverse, Hl. simpl default.
  rewrite (traverse_ret _ market_price); [reflexivity|].
  eapply List.Forall_impl; [|exact Hok]. apply market_price_of_digits.
Qed.

(** C3, as amended.  For every catalog list and every feed whose rows
    with a code of the catalog carry a text price (on the second
    marketplace: a text price with a decimal digit before its first
    ["."]), [create_prices] returns, in feed order, exactly one record,
    with the parsed price and the fixed fields of the marketplace, for
    each feed row whose code is in the catalog, and so no record for a
    catalog id that is the code of no row; it leaves the world as it was.
    For the catalog ["123"], ["789"] and the one row of ["123"] with price
    ["5'990.00 руб."] the result is the one record of ["123"] with price
    5990. *)
Theorem create_prices_one_record_per_covered_row ui (rows : list row)
    (ids : list string) :
  (forall l (w : world Seller.event),
      heap w !! l = Some ids ->
      Forall has_text_price (covered ids rows) ->
      Seller.create_prices rows l w
      = (Ret (map seller_price (covered ids rows)), w))
  /\ (forall l (w : world Market.event),
         heap w !! l = Some ids ->
         Forall has_digit_price (covered ids rows) ->
         Market.create_prices ui rows l w
         = (Ret (map market_price (covered ids rows)), w))
  /\ (forall x,
         In x ids -> ~ In x (map code rows) ->
         ~ In x (map Seller.Price.offer_id (map seller_price (covered ids rows)))
         /\ ~ In x (map Market.Price.id (map market_price (covered ids rows))))
  /\ Seller.create_prices
       [feed_row (PyStr "123") (PyStr "5") (PyStr "5'990.00 руб.")]
       0%nat (World [["123"; "789"]] [])
     = (Ret [Seller.Price.Make "UNKNOWN" "RUB" "123" "0" "5990"],
        World [["123"; "789"]] [])
  /\ Market.create_prices ui
       [feed_row (PyStr "123") (PyStr "5") (PyStr "5'990.00 руб.")]
       0%nat (World [["123"; "789"]] [])
     = (Ret [Market.Price.Make "123" (Market.Price.Amount 5990 "RUR")],
        World [["123"; "789"]] []).
Proof.
  split; [intros l w; apply seller_create_prices_ret|].
  split; [intros l w; apply market_create_prices_ret|].
  split.
  - intros x _ Hx. rewrite !List.map_map. simpl.
    split; intros Hin; apply List.in_map_iff in Hin as (watch & <- & Hw);
      apply covered_codes in Hw as [_ Hw]; apply Hx; now apply List.in_map.
  - split; [reflexivity|].
    rewrite (market_create_prices_ret ui _ ["123"; "789"]).
    + reflexivity.
    + reflexivity.
    + apply List.Forall_cons; [|apply List.Forall_nil].
      split; [eexists; reflexivity|discriminate].
Qed.

Lemma create_prices_one_record_per_covered_row_witness :
  Seller.create_prices
    [feed_row (PyStr "123") (PyStr "5") (PyStr "5'990.00 руб.");
     feed_row (PyStr "987") (PyStr "10") (PyStr "10'990.00 руб.")]
    0%nat (World [["123"; "789"]] [])
  = (Ret [Seller.Price.Make "UNKNOWN" "RUB" "123" "0" "5990"],
     World [["123"; "789"]] [])
  /\ Market.create_prices (fun _ => None)
       [feed_row (PyStr "123") (PyStr "5") (PyStr "5'990.00 руб.");
        feed_row (PyStr "987") (PyStr "10") (PyStr "10'990.00 руб.")]
       0%nat (World [["123"; "789"]] [])
     = (Ret [Market.Price.Make "123" (Market.Price.Amount 5990 "RUR")],
        World [["123"; "789"]] []).
Proof.
  pose proof (create_prices_one_record_per_covered_row (fun _ => None)
                [feed_row (PyStr "123") (PyStr "5") (PyStr "5'990.00 руб.");
                 feed_row (PyStr "987") (PyStr "10") (PyStr "10'990.00 руб.")]
                ["123"; "789"]) as (Hs & Hm & _).
  split.
  - refine (Hs 0%nat (World [["123"; "789"]] []) _ _); [reflexivity|].
    apply List.Forall_cons; [eexists; reflexivity|apply List.Forall_nil].
  - refine (Hm 0%nat (World [["123"; "789"]] []) _ _); [reflexivity|].
    apply List.Forall_cons; [|apply List.Forall_nil].
    split; [eexists; reflexivity|discriminate].
Defined.

(** The run the claim as stated leaves out: on the second marketplace a
    row of the catalog whose price text has no digit makes
    [create_prices] raise, so that no record at all is returned. *)
Lemma create_prices_one_record_per_covered_row_counterexample :
  ~ exists prices w',
      Market.create_prices (fun _ => None)
        [feed_row (PyStr "123") (PyStr "5") (PyStr "N/A")]
        0%nat (World [["123"]] [])
      = (Ret prices, w').
Proof. intros (prices & w' & H). vm_compute in H. discriminate. Qed.

(** ** What the reconcilers do to the catalog list *)

Lemma unmatched_after_sublist codes : forall ids earlier,
  sublist (unmatched_after earlier codes ids) ids.
Proof.
  induction ids as [|x rest IH]; intros earlier; [constructor|].
  cbn [unmatched_after].
  destruct (occurrences x earlier <? occurrences x codes)%nat.
  - apply sublist_cons, IH.
  - apply sublist_skip, IH.
Qed.

Lemma seller_create_prices_world rows l (w : world Seller.event) :
  snd (Seller.create_prices rows l w) = w.
Proof. now rewrite seller_create_prices_traverse. Qed.

(** C7.  [create_stocks] returns whenever no matched row has a malformed
    quantity, and after it has returned, the list the caller passed as
    [offer_ids] holds the catalog entries matched with no feed row, in
    their order in the catalog: each matched entry has been removed (for a
    catalog without repetition, what is left are the ids that are the code
    of no row); no other list and nothing of the log has changed.
    [create_prices] leaves the list, and the whole world, as it was,
    whether it returns or raises. *)
Theorem create_stocks_consumes_catalog ui (rows : list row) (ids : list string)
    (l : loc) (w : world Seller.event) :
  heap w !! l = Some ids ->
  (Forall (fun watch => is_ret (quantity ui watch) = true) (matched ids rows) ->
   exists stocks,
     Seller.create_stocks ui rows l w
     = (Ret stocks, World (<[l := unmatched rows ids]> (heap w)) (log w)))
  /\ (forall stocks (w' : world Seller.event),
         Seller.create_stocks ui rows l w = (Ret stocks, w') ->
         heap w' !! l = Some (unmatched rows ids)
         /\ (forall l', l' <> l -> heap w' !! l' = heap w !! l')
         /\ log w' = log w)
  /\ sublist (unmatched rows ids) ids
  /\ Permutation (map code (matched ids rows) ++ unmatched rows ids) ids
  /\ (NoDup ids -> unmatched rows ids = uncovered rows ids)
  /\ (forall rows' l' (w0 : world Seller.event),
         snd (Seller.create_prices rows' l' w0) = w0).
Proof.
  intros Hl. split.
  { intros Hok. eexists. now apply seller_create_stocks_ret. }
  split.
  { intros stocks w' Hrun.
    apply (seller_create_stocks_inv _ _ _ _ _ _ _ Hl) in Hrun as (_ & _ & ->).
    simpl. split.
    { apply list_lookup_insert_eq. now apply lookup_lt_Some in Hl. }
    split; [intros l' Hne; now apply list_lookup_insert_ne|reflexivity]. }
  split; [apply unmatched_after_sublist|].
  split; [apply matched_unmatched_permutation|].
  split; [apply unmatched_uncovered|].
  apply seller_create_prices_world.
Qed.

Lemma create_stocks_consumes_catalog_witness :
  exists stocks,
    Seller.create_stocks (fun _ => None)
      [feed_row (PyStr "123") (PyStr "5") (PyStr "5'990.00 руб.")]
      0%nat (World [["123"; "789"; "456"]] [])
    = (Ret stocks, World [["789"; "456"]] []).
Proof.
  refine (proj1 (create_stocks_consumes_catalog (fun _ => None)
            [feed_row (PyStr "123") (PyStr "5") (PyStr "5'990.00 руб.")]
            ["123"; "789"; "456"] 0%nat
            (World [["123"; "789"; "456"]] []) _) _).
  - reflexivity.
  - apply List.Forall_cons; [reflexivity|apply List.Forall_nil].
Defined.

(** ** Upload loops *)

Lemma bind_run {E A B} (c : M E A) (k : A -> M E B) (w w' : world E) o :
  c w = (o, w') ->
  bind c k w = match o with
               | Ret a => k a w'
               | Raise e => (Raise e, w')
               end.
Proof. intros H. unfold bind. rewrite H. now destruct o. Qed.

Lemma world_eta {E} (w : world E) : World (heap w) (log w) = w.
Proof. now destruct w. Qed.

Lemma chunks_of_nil {X} (limit : Z) : 0 < limit -> chunks_of limit (@nil X) = [].
Proof.
  intros H. unfold chunks_of, chunk_count. simpl.
  now rewrite Z.div_small by lia.
Qed.

Lemma divide_chunks_of {X} (records : list X) (limit : Z) :
  0 < limit -> Seller.divide records limit = Ret (chunks_of limit records).
Proof. apply divide_chunks. Qed.

Lemma chunks_of_bounded {X} (limit : Z) (records : list X) :
  0 <= limit ->
  Forall (fun b => Z.of_nat (length b) <= limit) (chunks_of limit records).
Proof.
  intros Hlimit. unfold chunks_of. apply List.Forall_forall. intros b Hb.
  apply List.in_map_iff in Hb as (k & <- & _). rewrite chunk_length. lia.
Qed.

Section Uploads.

Context {E : Type}.
Variable answer : list E -> option exn.

Lemma request_run e (w : world E) :
  request answer e w
  = (match answer (log w ++ [e]) with
     | None => Ret tt
     | Some err => Raise err
     end, World (heap w) (log w ++ [e])).
Proof.
  unfold request, bind, emit. simpl. now destruct (answer (log w ++ [e])).
Qed.

(** An upload loop sends the batches in order, up to the first request
    that fails. *)
Lemma for_each_request {X} (mk : list X -> E) : forall batches (w : world E),
  exists o k,
    for_each batches (fun b => request answer (mk b)) w
    = (o, World (heap w) (log w ++ map mk (firstn k batches))).
Proof.
  induction batches as [|b rest IH]; intros w.
  - exists (Ret tt), 0%nat. simpl. unfold ret.
    now rewrite List.app_nil_r, world_eta.
  - cbn [for_each]. rewrite (bind_run _ _ _ _ _ (request_run _ _)).
    destruct (answer (log w ++ [mk b])) as [err|].
    + exists (Raise err), 1%nat. simpl. now destruct rest.
    + destruct (IH (World (heap w) (log w ++ [mk b]))) as (o & k & Hrun).
      exists o, (S k). rewrite Hrun. simpl. now rewrite <- List.app_assoc.
Qed.

(** [for batch in list(divide(records, limit)): send(batch)], followed
    by [rest]. *)
Lemma upload_then {X A} (limit : Z) (mk : list X -> E) (records : list X)
    (rest : M E A) (w : world E) :
  0 < limit ->
  exists k,
    let w' := World (heap w)
                    (log w ++ map mk (firstn k (chunks_of limit records))) in
    let run := (batches <- lift (Seller.divide records limit) ;;
                for_each batches (fun b => request answer (mk b)) ;;;
                rest) w in
    run = rest w' \/ exists e, run = (Raise e, w').
Proof.
  intros Hlimit. unfold bind at 1, lift. rewrite divide_chunks_of by assumption.
  destruct (for_each_request mk (chunks_of limit records) w) as (o & k & Hrun).
  exists k. cbv zeta. rewrite (bind_run _ _ _ _ _ Hrun).
  destruct o; eauto.
Qed.

(** The same loop at the end of a block. *)
Lemma upload_last {X} (limit : Z) (mk : list X -> E) (records : list X)
    (w : world E) :
  0 < limit ->
  exists o k,
    (batches <- lift (Seller.divide records limit) ;;
     for_each batches (fun b => request answer (mk b))) w
    = (o, World (heap w) (log w ++ map mk (firstn k (chunks_of limit records)))).
Proof.
  intros Hlimit. unfold bind, lift. rewrite divide_chunks_of by assumption.
  apply for_each_request.
Qed.

End Uploads.

Lemma sent_in_chunks_bounded {E X} (limit : Z) (mk : list X -> E) events :
  0 <= limit ->
  sent_in_chunks limit mk events ->
  Forall (fun e => exists b, e = mk b /\ Z.of_nat (length b) <= limit) events.
Proof.
  intros Hlimit (records & k & ->). apply List.Forall_forall. intros e He.
  apply List.in_map_iff in He as (b & <- & Hb). exists b. split; [reflexivity|].
  assert (Hb' : In b (chunks_of limit records)).
  { rewrite <- (List.firstn_skipn k). apply List.in_or_app. now left. }
  clear Hb. rename Hb' into Hb.
  pose proof (chunks_of_bounded limit records Hlimit) as Hall.
  rewrite List.Forall_forall in Hall. now apply Hall.
Qed.

Lemma sent_in_chunks_nil {E X} (limit : Z) (mk : list X -> E) :
  sent_in_chunks limit mk [].
Proof. exists [], 0%nat. reflexivity. Qed.

(** ** The price reconciler after the stock reconciler *)

Lemma covered_unmatched_nil ids rows :
  NoDup ids -> covered (unmatched rows ids) rows = [].
Proof.
  intros Hnd. rewrite (unmatched_uncovered _ _ Hnd).
  destruct (covered (uncovered rows ids) rows) as [|watch more] eqn:Hc; [reflexivity|].
  assert (Hin : In watch (covered (uncovered rows ids) rows))
    by (rewrite Hc; now left).
  apply covered_codes in Hin as [Hcode Hrow].
  unfold uncovered in Hcode. apply List.filter_In in Hcode as [_ Hcode].
  apply negb_true_iff, py_in_false in Hcode.
  exfalso. apply Hcode. now apply List.in_map.
Qed.

(** ** The orchestration of the first marketplace *)

Ltac run_bind H :=
  unfold bind at 1; rewrite H; cbv beta iota.

Section Seller_runs.

Variable unicode_int : string -> option Z.
Variable answer : list Seller.event -> option exn.
Variable catalog : string -> string -> outcome (list string).
Variable feed : outcome (list row).

Lemma seller_get_offer_ids_ret cid tok ids (w : world Seller.event) :
  catalog cid tok = Ret ids ->
  Seller.get_offer_ids catalog cid tok w
  = (Ret (length (heap w)), World (heap w ++ [ids]) (log w)).
Proof.
  intros H. unfold Seller.get_offer_ids, bind, lift, new_list. now rewrite H.
Qed.

Lemma seller_get_offer_ids_raise cid tok e (w : world Seller.event) :
  catalog cid tok = Raise e ->
  Seller.get_offer_ids catalog cid tok w = (Raise e, w).
Proof.
  intros H. unfold Seller.get_offer_ids, bind, lift. now rewrite H.
Qed.

Lemma new_list_lookup (h : list (list string)) ids :
  (h ++ [ids]) !! length h = Some ids.
Proof. now apply list_lookup_middle. Qed.

(** What the [except] clauses print. *)
Lemma seller_main_except_run e (w : world Seller.event) :
  exists error text,
    Seller.main_except e w
    = (Ret tt, World (heap w) (log w ++ [Seller.Print error text]))
    /\ (e <> ReadTimeout -> e <> ConnectionError ->
        error = Some e /\ text = "ERROR_2").
Proof.
  destruct e; simpl; unfold emit; eexists; eexists;
    (split; [reflexivity|]); intros H1 H2; try congruence; auto.
Qed.

(** The [try] block: the stock batches, then the price batches, each
    up to the request that fails.  The prices are those of the rows with
    a code in what [create_stocks] has left of the catalog. *)
Lemma seller_main_try_log tok cid (w : world Seller.event) :
  exists o h stocks prices k1 k2,
    Seller.main_try unicode_int answer catalog feed tok cid w
    = (o, World h (log w
                   ++ map (Seller.Stocks_request cid tok)
                          (firstn k1 (chunks_of 100 stocks))
                   ++ map (Seller.Prices_request cid tok)
                          (firstn k2 (chunks_of 900 prices))))
    /\ (prices = []
        \/ exists ids rows,
            catalog cid tok = Ret ids /\ feed = Ret rows
            /\ traverse seller_price_of (covered (unmatched rows ids) rows)
               = Ret prices).
Proof.
  assert (Hquiet : forall o h,
             exists (o' : outcome unit) h' stocks prices k1 k2,
               (o, World h (log w))
               = (o', World h' (log w
                     ++ map (Seller.Stocks_request cid tok)
                            (firstn k1 (chunks_of 100 stocks))
                     ++ map (Seller.Prices_request cid tok)
                            (firstn k2 (chunks_of 900 prices))))
               /\ 
               (prices = []
        \/ exists ids rows,
            catalog cid tok = Ret ids /\ feed = Ret rows
            /\ traverse seller_price_of (covered (unmatched rows ids) rows)
               = Ret prices)).
  { intros o h. exists o, h, [], [], 0%nat, 0%nat. simpl.
    rewrite List.app_nil_r. split; [reflexivity|now left]. }
  unfold Seller.main_try.
  destruct (catalog cid tok) as [ids|e] eqn:Hcat.
  2:{ run_bind (seller_get_offer_ids_raise cid tok e w Hcat).
      rewrite <- (world_eta w). apply Hquiet. }
  run_bind (seller_get_offer_ids_ret cid tok ids w Hcat).
  set (l := length (heap w)). set (w1 := World (heap w ++ [ids]) (log w)).
  assert (Hl : heap w1 !! l = Some ids) by apply new_list_lookup.
  unfold Seller.download_stock. unfold bind at 1, lift at 1.
  destruct feed as [rows|e] eqn:Hfeed; [|apply Hquiet].
  destruct (quantities_ret_or_raise unicode_int (matched ids rows)) as [Hok|Hbad].
  2:{ destruct (seller_create_stocks_raise unicode_int rows ids l w1 Hl Hbad)
        as (e & h & _ & Hrun).
      run_bind Hrun. apply Hquiet. }
  run_bind (seller_create_stocks_ret unicode_int rows ids l w1 Hl Hok).
  set (stocks := seller_stocks unicode_int rows ids).
  set (w2 := World (<[l := unmatched rows ids]> (heap w1)) (log w1)).
  unfold Seller.update_stocks.
  match goal with
  | |- context [bind (lift (Seller.divide stocks 100))
                     (fun batches => bind _ (fun _ => ?rest))] =>
      destruct (upload_then answer 100 (Seller.Stocks_request cid tok)
                            stocks rest w2 ltac:(lia)) as [k1 Hup]
  end.
  cbv zeta in Hup. destruct Hup as [Hup|[e Hup]]; rewrite Hup.
  2:{ exists (Raise e), (heap w2), stocks, [], k1, 0%nat. simpl.
      rewrite List.app_nil_r. split; [reflexivity|now left]. }
  set (w3 := World (heap w2)
                   (log w2 ++ map (Seller.Stocks_request cid tok)
                                  (firstn k1 (chunks_of 100 stocks)))).
  assert (Hl3 : heap w3 !! l = Some (unmatched rows ids)).
  { simpl. apply list_lookup_insert_eq. unfold l.
    rewrite List.length_app. simpl. lia. }
  unfold bind at 1. rewrite seller_create_prices_traverse, Hl3. simpl default.
  destruct (traverse seller_price_of (covered (unmatched rows ids) rows))
    as [prices|e] eqn:Hprices.
  2:{ exists (Raise e), (heap w2), stocks, [], k1, 0%nat. simpl.
      rewrite List.app_nil_r. split; [reflexivity|now left]. }
  unfold Seller.update_price.
  destruct (upload_last answer 900 (Seller.Prices_request cid tok) prices w3
                        ltac:(lia)) as (o & k2 & Hlast).
  rewrite Hlast. exists o, (heap w2), stocks, prices, k1, k2.
  simpl. rewrite <- List.app_assoc. split; [reflexivity|].
  right. exists ids, rows. auto.
Qed.

Lemma seller_main_log tok cid (w : world Seller.event) :
  exists h stocks prices k1 k2 tail,
    Seller.main unicode_int answer catalog feed tok cid w
    = (Ret tt,
       World h (log w
                ++ map (Seller.Stocks_request cid tok)
                       (firstn k1 (chunks_of 100 stocks))
                ++ map (Seller.Prices_request cid tok)
                       (firstn k2 (chunks_of 900 prices))
                ++ tail))
    /\ (prices = []
        \/ exists ids rows,
            catalog cid tok = Ret ids /\ feed = Ret rows
            /\ traverse seller_price_of (covered (unmatched rows ids) rows)
               = Ret prices)
    /\ (tail = [] \/ exists error text, tail = [Seller.Print error text]).
Proof.
  destruct (seller_main_try_log tok cid w)
    as (o & h & stocks & prices & k1 & k2 & Hrun & Hprices).
  unfold Seller.main, try_except. rewrite Hrun.
  destruct o as [[]|e].
  - exists h, stocks, prices, k1, k2, []. rewrite List.app_nil_r. auto.
  - destruct (seller_main_except_run e (World h (log w
                ++ map (Seller.Stocks_request cid tok)
                       (firstn k1 (chunks_of 100 stocks))
                ++ map (Seller.Prices_request cid tok)
                       (firstn k2 (chunks_of 900 prices)))))
      as (error & text & Hexc & _).
    rewrite Hexc. exists h, stocks, prices, k1, k2, [Seller.Print error text].
    simpl. rewrite <- !List.app_assoc. split; [reflexivity|]. eauto.
Qed.

(** A malformed quantity on a matched row: [main] prints the error and
    sends nothing. *)
Lemma seller_main_malformed tok cid ids rows (w : world Seller.event) :
  catalog cid tok = Ret ids -> feed = Ret rows ->
  Exists (fun watch => is_ret (quantity unicode_int watch) = false)
         (matched ids rows) ->
  exists e h,
    (e = ValueError \/ e = TypeError)
    /\ Seller.main unicode_int answer catalog feed tok cid w
       = (Ret tt, World h (log w ++ [Seller.Print (Some e) "ERROR_2"])).
Proof.
  intros Hcat Hfeed Hbad. unfold Seller.main, try_except, Seller.main_try.
  run_bind (seller_get_offer_ids_ret cid tok ids w Hcat).
  unfold Seller.download_stock. unfold bind at 1, lift at 1. rewrite Hfeed.
  destruct (seller_create_stocks_raise unicode_int rows ids (length (heap w))
              (World (heap w ++ [ids]) (log w)) (new_list_lookup _ _) Hbad)
    as (e & h & He & Hrun).
  run_bind Hrun. exists e, h. split; [assumption|].
  destruct He as [-> | ->]; reflexivity.
Qed.

(** The same through [upload_stocks]: nothing there catches the error. *)
Lemma seller_upload_stocks_malformed tok cid ids rows (w : world Seller.event) :
  catalog cid tok = Ret ids ->
  Exists (fun watch => is_ret (quantity unicode_int watch) = false)
         (matched ids rows) ->
  exists e h,
    (e = ValueError \/ e = TypeError)
    /\ await (Seller.upload_stocks unicode_int answer catalog rows cid tok) w
       = (Raise e, World h (log w)).
Proof.
  intros Hcat Hbad. unfold await, Seller.upload_stocks.
  run_bind (seller_get_offer_ids_ret cid tok ids w Hcat).
  destruct (seller_create_stocks_raise unicode_int rows ids (length (heap w))
              (World (heap w ++ [ids]) (log w)) (new_list_lookup _ _) Hbad)
    as (e & h & He & Hrun).
  run_bind Hrun. eauto.
Qed.

End Seller_runs.

Lemma no_prices_in_stock_requests cid tok (batches : list (list Seller.Stock.t)) :
  List.filter is_prices_request (map (Seller.Stocks_request cid tok) batches) = [].
Proof. induction batches; simpl; auto. Qed.

(** C9.  In [main] of the first marketplace the list handed to
    [create_prices] is the list [create_stocks] has just consumed.  So for
    every feed and every catalog of pairwise distinct ids, that call of
    [create_prices] returns the empty list, and [main] sends no price
    request at all. *)
Theorem seller_main_sends_no_prices ui answer catalog feed (tok cid : string)
    (ids : list string) (w : world Seller.event) :
  catalog cid tok = Ret ids ->
  NoDup ids ->
  (forall rows l (w1 w2 : world Seller.event) stocks,
      heap w1 !! l = Some ids ->
      Seller.create_stocks ui rows l w1 = (Ret stocks, w2) ->
      Seller.create_prices rows l w2 = (Ret [], w2))
  /\ exists h new,
       Seller.main ui answer catalog feed tok cid w
       = (Ret tt, World h (log w ++ new))
       /\ List.filter is_prices_request new = [].
Proof.
  intros Hcat Hnd. split.
  - intros rows l w1 w2 stocks Hl Hrun.
    apply (seller_create_stocks_inv _ _ _ _ _ _ _ Hl) in Hrun as (_ & _ & ->).
    rewrite seller_create_prices_traverse. simpl heap.
    rewrite list_lookup_insert_eq by (now apply lookup_lt_Some in Hl).
    simpl default. now rewrite covered_unmatched_nil.
  - destruct (seller_main_log ui answer catalog feed tok cid w)
      as (h & stocks & prices & k1 & k2 & tail & Hrun & Hprices & Htail).
    assert (Hnil : prices = []).
    { destruct Hprices as [->|(ids' & rows & Hcat' & _ & Htr)]; [reflexivity|].
      rewrite Hcat in Hcat'. injection Hcat' as <-.
      rewrite covered_unmatched_nil in Htr by assumption.
      simpl in Htr. congruence. }
    subst prices. rewrite chunks_of_nil in Hrun by lia.
    rewrite List.firstn_nil in Hrun. simpl in Hrun.
    eexists. eexists. split; [exact Hrun|].
    rewrite List.filter_app, no_prices_in_stock_requests.
    destruct Htail as [->|(error & text & ->)]; reflexivity.
Qed.

Lemma seller_main_sends_no_prices_witness :
  exists h new,
    Seller.main (fun _ => None) (fun _ => None)
      (fun _ _ => Ret ["123"; "789"])
      (Ret [feed_row (PyStr "123") (PyStr "5") (PyStr "5'990.00 руб.")])
      "token" "client" (World [] [])
    = (Ret tt, World h ([] ++ new))
    /\ List.filter is_prices_request new = [].
Proof.
  refine (proj2 (seller_main_sends_no_prices (fun _ => None) (fun _ => None)
            (fun _ _ => Ret ["123"; "789"])
            (Ret [feed_row (PyStr "123") (PyStr "5") (PyStr "5'990.00 руб.")])
            "token" "client" ["123"; "789"] (World [] []) _ _)).
  - reflexivity.
  - apply NoDup_ListNoDup. repeat constructor; simpl; intuition discriminate.
Defined.

(** ** Computations that send nothing *)

Lemma for_fold_quiet {E S A} (body : S -> A -> M E S) :
  (forall s x w, log (snd (body s x w)) = log w) ->
  forall l s w, log (snd (for_fold l body s w)) = log w.
Proof.
  intros Hbody. induction l as [|x t IH]; intros s w; [reflexivity|].
  cbn [for_fold]. unfold bind. specialize (Hbody s x w).
  destruct (body s x w) as [[s'|e] w']; simpl in *; [|assumption].
  now rewrite IH.
Qed.

Lemma stock_loop_quiet {E R} ui (mk : string -> Z -> R) rows l (w : world E) :
  log (snd (stock_loop ui mk rows l w)) = log w.
Proof.
  unfold stock_loop, bind.
  pose proof (for_fold_quiet (stock_step (E := E) ui mk l)) as Hq.
  specialize (Hq ltac:(
    intros s x w0; unfold stock_step, bind, contents, list_remove, ret, lift;
    destruct (py_in _ _); [|reflexivity];
    destruct (String.eqb _ ">10"); [|destruct (String.eqb _ "1")];
    try destruct (int ui _);
    try destruct (remove_first _ _); reflexivity) rows [] w).
  destruct (for_fold rows _ [] w) as [[stocks|e] w']; simpl in *; assumption.
Qed.

Lemma quiet_run {E A} (c : M E A) (w : world E) :
  log (snd (c w)) = log w -> exists o h, c w = (o, World h (log w)).
Proof.
  destruct (c w) as [o [h lg]]. simpl. intros ->. eauto.
Qed.

Lemma seller_create_stocks_quiet ui rows l (w : world Seller.event) :
  exists o h, Seller.create_stocks ui rows l w = (o, World h (log w)).
Proof.
  apply quiet_run. rewrite seller_create_stocks_loop. apply stock_loop_quiet.
Qed.

Lemma market_create_stocks_quiet ui utcnow rows l warehouse (w : world Market.event) :
  exists o h, Market.create_stocks ui utcnow rows l warehouse w = (o, World h (log w)).
Proof.
  apply quiet_run. rewrite market_create_stocks_loop. apply stock_loop_quiet.
Qed.

Lemma seller_get_offer_ids_quiet catalog cid tok (w : world Seller.event) :
  exists o h, Seller.get_offer_ids catalog cid tok w = (o, World h (log w)).
Proof.
  unfold Seller.get_offer_ids, bind, lift, new_list.
  destruct (catalog cid tok); [eauto|]. exists (Raise e), (heap w).
  now rewrite world_eta.
Qed.

Lemma market_get_offer_ids_quiet catalog cid tok (w : world Market.event) :
  exists o h, Market.get_offer_ids catalog cid tok w = (o, World h (log w)).
Proof.
  unfold Market.get_offer_ids, bind, lift, new_list.
  destruct (catalog cid tok); [eauto|]. exists (Raise e), (heap w).
  now rewrite world_eta.
Qed.

Lemma seller_create_prices_quiet rows l (w : world Seller.event) :
  exists o, Seller.create_prices rows l w = (o, w).
Proof. rewrite seller_create_prices_traverse. eauto. Qed.

Lemma market_create_prices_quiet ui rows l (w : world Market.event) :
  exists o, Market.create_prices ui rows l w = (o, w).
Proof. rewrite market_create_prices_traverse. eauto. Qed.

(** ** The upload coroutines, once awaited *)

Lemma sent_in_chunks_take {E X} (limit : Z) (mk : list X -> E) records k :
  sent_in_chunks limit mk (map mk (firstn k (chunks_of limit records))).
Proof. exists records, k. reflexivity. Qed.

Lemma seller_upload_stocks_log ui answer catalog rows cid tok (w : world Seller.event) :
  exists o h sent,
    await (Seller.upload_stocks ui answer catalog rows cid tok) w
    = (o, World h (log w ++ sent))
    /\ sent_in_chunks 100 (Seller.Stocks_request cid tok) sent.
Proof.
  unfold await, Seller.upload_stocks.
  destruct (seller_get_offer_ids_quiet catalog cid tok w) as (o1 & h1 & H1).
  run_bind H1. destruct o1 as [l|e].
  2:{ exists (Raise e), h1, []. rewrite List.app_nil_r.
      split; [reflexivity|apply sent_in_chunks_nil]. }
  destruct (seller_create_stocks_quiet ui rows l (World h1 (log w)))
    as (o2 & h2 & H2).
  run_bind H2. simpl log. destruct o2 as [stocks|e].
  2:{ exists (Raise e), h2, []. rewrite List.app_nil_r.
      split; [reflexivity|apply sent_in_chunks_nil]. }
  unfold Seller.update_stocks.
  match goal with
  | |- context [bind (lift (Seller.divide stocks 100))
                     (fun batches => bind _ (fun _ => ?rest))] =>
      destruct (upload_then answer 100 (Seller.Stocks_request cid tok)
                            stocks rest (World h2 (log w)) ltac:(lia)) as [k Hup]
  end.
  cbv zeta in Hup. simpl heap in Hup. simpl log in Hup.
  destruct Hup as [Hup|[e Hup]]; rewrite Hup; unfold ret;
    eexists; eexists; eexists; (split; [reflexivity|apply sent_in_chunks_take]).
Qed.

Lemma seller_upload_prices_log answer catalog rows cid tok (w : world Seller.event) :
  exists o h sent,
    await (Seller.upload_prices answer catalog rows cid tok) w
    = (o, World h (log w ++ sent))
    /\ sent_in_chunks 1000 (Seller.Prices_request cid tok) sent.
Proof.
  unfold await, Seller.upload_prices.
  destruct (seller_get_offer_ids_quiet catalog cid tok w) as (o1 & h1 & H1).
  run_bind H1. destruct o1 as [l|e].
  2:{ exists (Raise e), h1, []. rewrite List.app_nil_r.
      split; [reflexivity|apply sent_in_chunks_nil]. }
  destruct (seller_create_prices_quiet rows l (World h1 (log w))) as (o2 & H2).
  run_bind H2. destruct o2 as [prices|e].
  2:{ exists (Raise e), h1, []. rewrite List.app_nil_r.
      split; [reflexivity|apply sent_in_chunks_nil]. }
  unfold Seller.update_price.
  match goal with
  | |- context [bind (lift (Seller.divide prices 1000))
                     (fun batches => bind _ (fun _ => ?rest))] =>
      destruct (upload_then answer 1000 (Seller.Prices_request cid tok)
                            prices rest (World h1 (log w)) ltac:(lia)) as [k Hup]
  end.
  cbv zeta in Hup. simpl heap in Hup. simpl log in Hup.
  destruct Hup as [Hup|[e Hup]]; rewrite Hup; unfold ret;
    eexists; eexists; eexists; (split; [reflexivity|apply sent_in_chunks_take]).
Qed.

Lemma market_upload_stocks_log ui answer catalog utcnow rows cid tok warehouse
    (w : world Market.event) :
  exists o h sent,
    await (Market.upload_stocks ui answer catalog utcnow rows cid tok warehouse) w
    = (o, World h (log w ++ sent))
    /\ sent_in_chunks 2000 (Market.Stocks_request cid tok) sent.
Proof.
  unfold await, Market.upload_stocks.
  destruct (market_get_offer_ids_quiet catalog cid tok w) as (o1 & h1 & H1).
  run_bind H1. destruct o1 as [l|e].
  2:{ exists (Raise e), h1, []. rewrite List.app_nil_r.
      split; [reflexivity|apply sent_in_chunks_nil]. }
  destruct (market_create_stocks_quiet ui utcnow rows l warehouse (World h1 (log w)))
    as (o2 & h2 & H2).
  run_bind H2. simpl log. destruct o2 as [stocks|e].
  2:{ exists (Raise e), h2, []. rewrite List.app_nil_r.
      split; [reflexivity|apply sent_in_chunks_nil]. }
  unfold Market.update_stocks.
  match goal with
  | |- context [bind (lift (Seller.divide stocks 2000))
                     (fun batches => bind _ (fun _ => ?rest))] =>
      destruct (upload_then answer 2000 (Market.Stocks_request cid tok)
                            stocks rest (World h2 (log w)) ltac:(lia)) as [k Hup]
  end.
  cbv zeta in Hup. simpl heap in Hup. simpl log in Hup.
  destruct Hup as [Hup|[e Hup]]; rewrite Hup; unfold ret;
    eexists; eexists; eexists; (split; [reflexivity|apply sent_in_chunks_take]).
Qed.

Lemma market_upload_prices_log ui answer catalog rows cid tok (w : world Market.event) :
  exists o h sent,
    await (Market.upload_prices ui answer catalog rows cid tok) w
    = (o, World h (log w ++ sent))
    /\ sent_in_chunks 500 (Market.Prices_request cid tok) sent.
Proof.
  unfold await, Market.upload_prices.
  destruct (market_get_offer_ids_quiet catalog cid tok w) as (o1 & h1 & H1).
  run_bind H1. destruct o1 as [l|e].
  2:{ exists (Raise e), h1, []. rewrite List.app_nil_r.
      split; [reflexivity|apply sent_in_chunks_nil]. }
  destruct (market_create_prices_quiet ui rows l (World h1 (log w))) as (o2 & H2).
  run_bind H2. destruct o2 as [prices|e].
  2:{ exists (Raise e), h1, []. rewrite List.app_nil_r.
      split; [reflexivity|apply sent_in_chunks_nil]. }
  unfold Market.update_price.
  match goal with
  | |- context [bind (lift (Seller.divide prices 500))
                     (fun batches => bind _ (fun _ => ?rest))] =>
      destruct (upload_then answer 500 (Market.Prices_request cid tok)
                            prices rest (World h1 (log w)) ltac:(lia)) as [k Hup]
  end.
  cbv zeta in Hup. simpl heap in Hup. simpl log in Hup.
  destruct Hup as [Hup|[e Hup]]; rewrite Hup; unfold ret;
    eexists; eexists; eexists; (split; [reflexivity|apply sent_in_chunks_take]).
Qed.

(** ** The orchestration of the second marketplace *)

Lemma market_main_except_run e (w : world Market.event) :
  exists error text,
    Market.main_except e w
    = (Ret tt, World (heap w) (log w ++ [Market.Print error text]))
    /\ (e <> ReadTimeout -> e <> ConnectionError ->
        error = Some e /\ text = "ERROR_2").
Proof.
  destruct e; simpl; unfold emit; eexists; eexists;
    (split; [reflexivity|]); intros H1 H2; try congruence; auto.
Qed.

(** The [try] block sends the stock batches of the first campaign, then
    those of the second, and nothing else. *)
Lemma market_main_try_log ui answer catalog utcnow rows tok fbs dbs wf wd
    (w : world Market.event) :
  exists o h sent1 sent2,
    Market.main_try ui answer catalog utcnow rows tok fbs dbs wf wd w
    = (o, World h (log w ++ sent1 ++ sent2))
    /\ sent_in_chunks 2000 (Market.Stocks_request fbs tok) sent1
    /\ sent_in_chunks 2000 (Market.Stocks_request dbs tok) sent2.
Proof.
  assert (Hstop : forall o h sent1,
             sent_in_chunks 2000 (Market.Stocks_request fbs tok) sent1 ->
             exists (o' : outcome unit) h' s1 s2,
               (o, World h (log w ++ sent1)) = (o', World h' (log w ++ s1 ++ s2))
               /\ sent_in_chunks 2000 (Market.Stocks_request fbs tok) s1
               /\ sent_in_chunks 2000 (Market.Stocks_request dbs tok) s2).
  { intros o h sent1 H1. exists o, h, sent1, []. rewrite List.app_nil_r.
    split; [reflexivity|]. split; [assumption|apply sent_in_chunks_nil]. }
  unfold Market.main_try.
  destruct (market_get_offer_ids_quiet catalog fbs tok w) as (o1 & h1 & H1).
  run_bind H1. destruct o1 as [l|e].
  2:{ exists (Raise e), h1, [], []. simpl. rewrite List.app_nil_r.
      split; [reflexivity|]. split; apply sent_in_chunks_nil. }
  destruct (market_create_stocks_quiet ui utcnow rows l wf (World h1 (log w)))
    as (o2 & h2 & H2).
  run_bind H2. simpl log. destruct o2 as [stocks|e].
  2:{ exists (Raise e), h2, [], []. simpl. rewrite List.app_nil_r.
      split; [reflexivity|]. split; apply sent_in_chunks_nil. }
  unfold Market.update_stocks.
  match goal with
  | |- context [bind (lift (Seller.divide stocks 2000))
                     (fun batches => bind _ (fun _ => ?rest))] =>
      destruct (upload_then answer 2000 (Market.Stocks_request fbs tok)
                            stocks rest (World h2 (log w)) ltac:(lia)) as [k1 Hup]
  end.
  cbv zeta in Hup. simpl heap in Hup. simpl log in Hup.
  destruct Hup as [Hup|[e Hup]]; rewrite Hup.
  2:{ apply Hstop, sent_in_chunks_take. }
  clear Hup. unfold bind at 1, ret at 1. cbv beta iota.
  set (sent1 := map (Market.Stocks_request fbs tok)
                    (firstn k1 (chunks_of 2000 stocks))).
  assert (Hs1 : sent_in_chunks 2000 (Market.Stocks_request fbs tok) sent1)
    by apply sent_in_chunks_take.
  clearbody sent1. clear Hstop.
  destruct (market_get_offer_ids_quiet catalog dbs tok (World h2 (log w ++ sent1)))
    as (o3 & h3 & H3).
  run_bind H3. simpl log. destruct o3 as [l'|e].
  2:{ exists (Raise e), h3, sent1, []. rewrite List.app_nil_r.
      split; [reflexivity|]. split; [assumption|apply sent_in_chunks_nil]. }
  destruct (market_create_stocks_quiet ui utcnow rows l' wd
              (World h3 (log w ++ sent1))) as (o4 & h4 & H4).
  run_bind H4. simpl log. destruct o4 as [stocks'|e].
  2:{ exists (Raise e), h4, sent1, []. rewrite List.app_nil_r.
      split; [reflexivity|]. split; [assumption|apply sent_in_chunks_nil]. }
  match goal with
  | |- context [bind (lift (Seller.divide stocks' 2000))
                     (fun batches => bind _ (fun _ => ?rest))] =>
      destruct (upload_then answer 2000 (Market.Stocks_request dbs tok)
                            stocks' rest (World h4 (log w ++ sent1)) ltac:(lia))
        as [k2 Hup]
  end.
  cbv zeta in Hup. simpl heap in Hup. simpl log in Hup.
  destruct Hup as [Hup|[e Hup]]; rewrite Hup;
    [unfold bind, ret|]; rewrite <- List.app_assoc;
    eexists; eexists; eexists; eexists;
    (split; [reflexivity|]); (split; [assumption|apply sent_in_chunks_take]).
Qed.

Lemma market_main_log ui answer catalog feed utcnow tok fbs dbs wf wd
    (w : world Market.event) :
  exists o h sent1 sent2 tail,
    Market.main ui answer catalog feed utcnow tok fbs dbs wf wd w
    = (o, World h (log w ++ sent1 ++ sent2 ++ tail))
    /\ sent_in_chunks 2000 (Market.Stocks_request fbs tok) sent1
    /\ sent_in_chunks 2000 (Market.Stocks_request dbs tok) sent2
    /\ (tail = [] \/ exists error text, tail = [Market.Print error text]).
Proof.
  unfold Market.main, Market.download_stock. unfold bind at 1, lift at 1.
  destruct feed as [rows|e].
  2:{ exists (Raise e), (heap w), [], [], []. simpl.
      rewrite List.app_nil_r, world_eta.
      split; [reflexivity|]. split; [apply sent_in_chunks_nil|].
      split; [apply sent_in_chunks_nil|now left]. }
  destruct (market_main_try_log ui answer catalog utcnow rows tok fbs dbs wf wd w)
    as (o & h & sent1 & sent2 & Hrun & H1 & H2).
  unfold try_except. rewrite Hrun. destruct o as [[]|e].
  - exists (Ret tt), h, sent1, sent2, []. rewrite List.app_nil_r.
    repeat split; auto.
  - destruct (market_main_except_run e (World h (log w ++ sent1 ++ sent2)))
      as (error & text & Hexc & _).
    rewrite Hexc. exists (Ret tt), h, sent1, sent2, [Market.Print error text].
    simpl. rewrite <- !List.app_assoc. repeat split; eauto.
Qed.

Lemma sent_stocks_no_prices cid tok sent :
  sent_in_chunks 2000 (Market.Stocks_request cid tok) sent ->
  List.filter is_market_prices_request sent = [].
Proof.
  intros (records & k & ->). induction (firstn k (chunks_of 2000 records)); simpl; auto.
Qed.

(** C10.  In [main] of the second marketplace each call of the
    [async def] function [upload_prices] only makes a coroutine; nothing
    awaits it, its body never runs.  So for every input [main] sends no
    price request: it sends stock requests only.  (Awaited, the same
    coroutine does send one.) *)
Theorem market_main_sends_no_prices ui answer catalog feed utcnow
    (tok fbs dbs wf wd : string) (w : world Market.event) :
  (exists o h new,
      Market.main ui answer catalog feed utcnow tok fbs dbs wf wd w
      = (o, World h (log w ++ new))
      /\ List.filter is_market_prices_request new = [])
  /\ log (snd (await (Market.upload_prices (fun _ => None) (fun _ => None)
                        (fun _ _ => Ret ["123"; "789"])
                        [feed_row (PyStr "123") (PyStr "5") (PyStr "5'990.00 руб.")]
                        "fbs" "token")
                     (World [] [])))
     = [Market.Prices_request "fbs" "token"
          [Market.Price.Make "123" (Market.Price.Amount 5990 "RUR")]].
Proof.
  split; [|reflexivity].
  destruct (market_main_log ui answer catalog feed utcnow tok fbs dbs wf wd w)
    as (o & h & sent1 & sent2 & tail & Hrun & H1 & H2 & Htail).
  exists o, h, (sent1 ++ sent2 ++ tail). split; [exact Hrun|].
  rewrite !List.filter_app.
  rewrite (sent_stocks_no_prices _ _ _ H1), (sent_stocks_no_prices _ _ _ H2).
  destruct Htail as [->|(error & text & ->)]; reflexivity.
Qed.

(** ** Chunk sizes *)

(** Two batches in a row, the second not empty: the first is a full chunk. *)
Lemma sent_in_chunks_first_full {E X} (limit : Z) (mk : list X -> E) b1 b2 :
  (forall a b, mk a = mk b -> a = b) ->
  0 < limit ->
  sent_in_chunks limit mk [mk b1; mk b2] ->
  b2 <> [] ->
  Z.of_nat (length b1) = limit.
Proof.
  intros Hinj Hlimit (records & k & Hsent) Hb2.
  unfold chunks_of in Hsent.
  destruct (chunk_count (Z.of_nat (length records)) limit) as [|[|cnt]];
    [destruct k; discriminate| |].
  { destruct k as [|[|k]]; discriminate. }
  destruct k as [|[|k]]; [discriminate..|].
  cbn [seq map firstn] in Hsent. injection Hsent as H1 H2 _.
  apply Hinj in H1, H2. subst b1 b2.
  rewrite chunk_length.
  assert (Hlen : length (chunk (Z.to_nat limit) records 1) <> 0%nat)
    by (destruct (chunk _ _ 1); [congruence|discriminate]).
  rewrite chunk_length in Hlen. lia.
Qed.

(** C6, as amended.  On every orchestration path the batches sent are
    the chunks [divide] cuts one list of records into, in order and up to
    the request that fails, for a fixed chunk size: 100 for the stocks and
    900 for the prices in [main] of the first marketplace, 100 in its
    [upload_stocks], 1000 in its [upload_prices]; 2000 for the stocks in
    [main] and in [upload_stocks] of the second marketplace, and 500 in
    its [upload_prices].  So every batch sent holds at most that many
    records. *)
Theorem uploads_in_fixed_chunks :
  (forall ui answer catalog feed tok cid (w : world Seller.event),
      exists h stocks_sent prices_sent tail,
        Seller.main ui answer catalog feed tok cid w
        = (Ret tt, World h (log w ++ stocks_sent ++ prices_sent ++ tail))
        /\ sent_in_chunks 100 (Seller.Stocks_request cid tok) stocks_sent
        /\ sent_in_chunks 900 (Seller.Prices_request cid tok) prices_sent
        /\ (tail = [] \/ exists error text, tail = [Seller.Print error text]))
  /\ (forall ui answer catalog rows cid tok (w : world Seller.event),
         exists o h sent,
           await (Seller.upload_stocks ui answer catalog rows cid tok) w
           = (o, World h (log w ++ sent))
           /\ sent_in_chunks 100 (Seller.Stocks_request cid tok) sent)
  /\ (forall answer catalog rows cid tok (w : world Seller.event),
         exists o h sent,
           await (Seller.upload_prices answer catalog rows cid tok) w
           = (o, World h (log w ++ sent))
           /\ sent_in_chunks 1000 (Seller.Prices_request cid tok) sent)
  /\ (forall ui answer catalog feed utcnow tok fbs dbs wf wd (w : world Market.event),
         exists o h sent1 sent2 tail,
           Market.main ui answer catalog feed utcnow tok fbs dbs wf wd w
           = (o, World h (log w ++ sent1 ++ sent2 ++ tail))
           /\ sent_in_chunks 2000 (Market.Stocks_request fbs tok) sent1
           /\ sent_in_chunks 2000 (Market.Stocks_request dbs tok) sent2
           /\ (tail = [] \/ exists error text, tail = [Market.Print error text]))
  /\ (forall ui answer catalog utcnow rows cid tok warehouse (w : world Market.event),
         exists o h sent,
           await (Market.upload_stocks ui answer catalog utcnow rows cid tok warehouse) w
           = (o, World h (log w ++ sent))
           /\ sent_in_chunks 2000 (Market.Stocks_request cid tok) sent)
  /\ (forall ui answer catalog rows cid tok (w : world Market.event),
         exists o h sent,
           await (Market.upload_prices ui answer catalog rows cid tok) w
           = (o, World h (log w ++ sent))
           /\ sent_in_chunks 500 (Market.Prices_request cid tok) sent)
  /\ (forall (E X : Type) (limit : Z) (mk : list X -> E) (events : list E),
         0 <= limit ->
         sent_in_chunks limit mk events ->
         Forall (fun e => exists b, e = mk b /\ Z.of_nat (length b) <= limit) events).
Proof.
  split.
  { intros ui answer catalog feed tok cid w.
    destruct (seller_main_log ui answer catalog feed tok cid w)
      as (h & stocks & prices & k1 & k2 & tail & Hrun & _ & Htail).
    eexists. eexists. eexists. eexists. split; [exact Hrun|].
    split; [apply sent_in_chunks_take|]. split; [apply sent_in_chunks_take|].
    exact Htail. }
  split; [intros; apply seller_upload_stocks_log|].
  split; [intros; apply seller_upload_prices_log|].
  split; [intros; apply market_main_log|].
  split; [intros; apply market_upload_stocks_log|].
  split; [intros; apply market_upload_prices_log|].
  intros E X limit mk events. apply sent_in_chunks_bounded.
Qed.

Lemma uploads_in_fixed_chunks_witness :
  Forall (fun e => exists b, e = Market.Prices_request "fbs" "token" b
                             /\ Z.of_nat (length b) <= 500)
         (map (Market.Prices_request "fbs" "token")
              (firstn 1 (chunks_of 500
                 [Market.Price.Make "123" (Market.Price.Amount 5990 "RUR")]))).
Proof.
  refine (proj2 (proj2 (proj2 (proj2 (proj2 (proj2 uploads_in_fixed_chunks)))))
            Market.event Market.Price.t 500 (Market.Prices_request "fbs" "token")
            _ _ _).
  - lia.
  - apply sent_in_chunks_take.
Defined.

(** The claim as stated fails: [upload_prices] of the second marketplace
    cuts its prices into chunks of 500, which is none of 100, 900, 1000
    and 2000.  For 501 prices it sends a batch of 500 and then a batch of
    one. *)
Lemma uploads_in_fixed_chunks_counterexample :
  let price := Market.Price.Make "123" (Market.Price.Amount 1 "RUR") in
  let sent := [Market.Prices_request "fbs" "token" (repeat price 500);
               Market.Prices_request "fbs" "token" [price]] in
  await (Market.upload_prices (fun _ => None) (fun _ => None)
           (fun _ _ => Ret ["123"])
           (repeat (feed_row (PyStr "123") (PyStr "5") (PyStr "1.00 руб.")) 501)
           "fbs" "token")
        (World [] [])
  = (Ret (repeat price 501), World [["123"]] sent)
  /\ forall limit, In limit [100; 900; 1000; 2000] ->
       ~ sent_in_chunks limit (Market.Prices_request "fbs" "token") sent.
Proof.
  cbv zeta. split; [vm_compute; reflexivity|].
  intros limit Hlimit Hsent.
  apply sent_in_chunks_first_full in Hsent.
  - rewrite List.repeat_length in Hsent. simpl in Hlimit.
    destruct Hlimit as [<-|[<-|[<-|[<-|[]]]]]; discriminate.
  - intros a b [= ->]. reflexivity.
  - simpl in Hlimit. destruct Hlimit as [<-|[<-|[<-|[<-|[]]]]]; lia.
  - discriminate.
Qed.

(** ** Malformed quantities *)

Lemma market_get_offer_ids_ret catalog cid tok ids (w : world Market.event) :
  catalog cid tok = Ret ids ->
  Market.get_offer_ids catalog cid tok w
  = (Ret (length (heap w)), World (heap w ++ [ids]) (log w)).
Proof.
  intros H. unfold Market.get_offer_ids, bind, lift, new_list. now rewrite H.
Qed.

Lemma market_main_malformed ui answer catalog utcnow tok fbs dbs wf wd ids rows
    (w : world Market.event) :
  catalog fbs tok = Ret ids ->
  Exists (fun watch => is_ret (quantity ui watch) = false) (matched ids rows) ->
  exists e h,
    (e = ValueError \/ e = TypeError)
    /\ Market.main ui answer catalog (Ret rows) utcnow tok fbs dbs wf wd w
       = (Ret tt, World h (log w ++ [Market.Print (Some e) "ERROR_2"])).
Proof.
  intros Hcat Hbad.
  unfold Market.main, Market.download_stock, try_except, Market.main_try.
  unfold bind at 1, lift at 1.
  run_bind (market_get_offer_ids_ret catalog fbs tok ids w Hcat).
  destruct (market_create_stocks_raise ui utcnow rows ids (length (heap w)) wf
              (World (heap w ++ [ids]) (log w)) (new_list_lookup _ _) Hbad)
    as (e & h & He & Hrun).
  run_bind Hrun. exists e, h. split; [assumption|].
  destruct He as [-> | ->]; reflexivity.
Qed.

(** C8, as amended.  For every feed with a row that finds its code in
    what remains of the catalog when it is reached, and whose raw quantity
    is neither [">10"] nor ["1"] nor an integer literal, [create_stocks]
    raises (the integer conversion fails) and returns no list.  Nothing
    in the reconciler or after it handles the error: it leaves
    [upload_stocks] as it is, and in [main] the [except] clause prints it
    with ["ERROR_2"], nothing having been sent. *)
Theorem malformed_quantity_aborts_run ui (rows : list row) (ids : list string) :
  Exists (malformed_quantity ui) (matched ids rows) ->
  (forall l (w : world Seller.event),
      heap w !! l = Some ids ->
      exists e h,
        (e = ValueError \/ e = TypeError)
        /\ Seller.create_stocks ui rows l w = (Raise e, World h (log w)))
  /\ (forall utcnow warehouse l (w : world Market.event),
         heap w !! l = Some ids ->
         exists e h,
           (e = ValueError \/ e = TypeError)
           /\ Market.create_stocks ui utcnow rows l warehouse w
              = (Raise e, World h (log w)))
  /\ (forall answer catalog tok cid (w : world Seller.event),
         catalog cid tok = Ret ids ->
         exists e h,
           (e = ValueError \/ e = TypeError)
           /\ await (Seller.upload_stocks ui answer catalog rows cid tok) w
              = (Raise e, World h (log w)))
  /\ (forall answer catalog tok cid (w : world Seller.event),
         catalog cid tok = Ret ids ->
         exists e h,
           (e = ValueError \/ e = TypeError)
           /\ Seller.main ui answer catalog (Ret rows) tok cid w
              = (Ret tt, World h (log w ++ [Seller.Print (Some e) "ERROR_2"])))
  /\ (forall answer catalog utcnow tok fbs dbs wf wd (w : world Market.event),
         catalog fbs tok = Ret ids ->
         exists e h,
           (e = ValueError \/ e = TypeError)
           /\ Market.main ui answer catalog (Ret rows) utcnow tok fbs dbs wf wd w
              = (Ret tt, World h (log w ++ [Market.Print (Some e) "ERROR_2"]))).
Proof.
  intros Hbad.
  assert (Hraise : Exists (fun watch => is_ret (quantity ui watch) = false)
                          (matched ids rows)).
  { eapply List.Exists_impl; [|exact Hbad].
    intros watch. apply malformed_quantity_raises. }
  split; [intros l w Hl; now apply seller_create_stocks_raise with (ids := ids)|].
  split; [intros utcnow warehouse l w Hl;
          now apply market_create_stocks_raise with (ids := ids)|].
  split; [intros answer catalog tok cid w Hcat;
          now apply seller_upload_stocks_malformed with (ids := ids)|].
  split; [intros answer catalog tok cid w Hcat;
          now apply seller_main_malformed with (ids := ids) (rows := rows)|].
  intros answer catalog utcnow tok fbs dbs wf wd w Hcat.
  now apply market_main_malformed with (ids := ids).
Qed.

Lemma malformed_quantity_aborts_run_witness :
  exists e h,
    (e = ValueError \/ e = TypeError)
    /\ Seller.main (fun _ => None) (fun _ => None) (fun _ _ => Ret ["123"; "789"])
         (Ret [feed_row (PyStr "123") (PyStr "abc") (PyStr "5'990.00 руб.")])
         "token" "client" (World [] [])
       = (Ret tt, World h ([] ++ [Seller.Print (Some e) "ERROR_2"])).
Proof.
  refine (proj1 (proj2 (proj2 (proj2
            (malformed_quantity_aborts_run (fun _ => None)
               [feed_row (PyStr "123") (PyStr "abc") (PyStr "5'990.00 руб.")]
               ["123"; "789"] _))))
            (fun _ => None) (fun _ _ => Ret ["123"; "789"])
            "token" "client" (World [] []) _).
  - apply List.Exists_cons_hd. unfold malformed_quantity.
    split; [|split]; [intros H; vm_compute in H; discriminate..|reflexivity].
  - reflexivity.
Defined.

(** The claim as stated fails for a row whose code is in the catalog but
    no longer in what remains of it: a row before it has taken the entry,
    the row is passed over, and its malformed quantity is never read. *)
Lemma malformed_quantity_aborts_run_counterexample :
  let bad := feed_row (PyStr "123") (PyStr "abc") PyNone in
  let rows := [feed_row (PyStr "123") (PyStr "5") PyNone; bad] in
  In bad rows
  /\ In (code bad) ["123"]
  /\ malformed_quantity (fun _ => None) bad
  /\ Seller.create_stocks (fun _ => None) rows 0%nat (World [["123"]] [])
     = (Ret [Seller.Stock.Make "123" 5], World [[]] []).
Proof.
  cbv zeta. split; [right; left; reflexivity|].
  split; [left; reflexivity|].
  split; [|vm_compute; reflexivity].
  unfold malformed_quantity.
  split; [|split]; [intros H; vm_compute in H; discriminate..|reflexivity].
Qed.

(** * Further properties of the code *)

(** ** [divide] at the edges *)

(** [divide] with chunk size 0 raises [ValueError] whatever the list (the
    step of [range] is zero); with a negative chunk size, or on the empty
    list, it yields no chunk at all. *)
Theorem divide_degenerate_sizes {A} (lst : list A) :
  Seller.divide lst 0 = Raise ValueError
  /\ (forall n, n < 0 -> Seller.divide lst n = Ret [])
  /\ (forall n, n <> 0 -> Seller.divide (@nil A) n = Ret []).
Proof.
  split; [reflexivity|]. split.
  - intros n Hn. unfold Seller.divide, range, range_length.
    destruct (Z.eqb_spec n 0); [lia|].
    destruct (Z.ltb_spec 0 n); [lia|].
    destruct (Z.ltb_spec (Z.of_nat (length lst)) 0); [lia|]. reflexivity.
  - intros n Hn. unfold Seller.divide, range, range_length.
    destruct (Z.eqb_spec n 0); [lia|]. simpl.
    now destruct (0 <? n).
Qed.

Lemma divide_degenerate_sizes_witness :
  Seller.divide [1; 2; 3] (-2) = Ret [] /\ Seller.divide (@nil Z) 7 = Ret [].
Proof.
  destruct (divide_degenerate_sizes [1; 2; 3]) as (_ & Hneg & Hnil).
  split; [apply Hneg; lia|apply Hnil; lia].
Defined.

Lemma chunks_of_nonempty {X} (limit : Z) (records : list X) :
  0 < limit -> Forall (fun b => b <> []) (chunks_of limit records).
Proof.
  intros Hlimit. unfold chunks_of. apply List.Forall_forall. intros b Hb.
  apply List.in_map_iff in Hb as (k & <- & Hk). apply List.in_seq in Hk.
  destruct (chunk_count_bounds (length records) limit Hlimit) as [_ [Hlow|[_ H0]]];
    [|lia].
  intros Hnil. apply (f_equal (@length X)) in Hnil.
  rewrite chunk_length in Hnil. simpl in Hnil. nia.
Qed.

Lemma sent_in_chunks_nonempty {E X} (limit : Z) (mk : list X -> E) events :
  0 < limit ->
  sent_in_chunks limit mk events ->
  Forall (fun e => exists b, e = mk b /\ b <> []) events.
Proof.
  intros Hlimit (records & k & ->). apply List.Forall_forall. intros e He.
  apply List.in_map_iff in He as (b & <- & Hb). exists b. split; [reflexivity|].
  assert (Hb' : In b (chunks_of limit records)).
  { rewrite <- (List.firstn_skipn k). apply List.in_or_app. now left. }
  pose proof (chunks_of_nonempty limit records Hlimit) as Hall.
  rewrite List.Forall_forall in Hall. now apply Hall.
Qed.

(** Neither [main] ever sends a request with an empty batch: when there
    is nothing to send, nothing is sent. *)
Theorem mains_send_no_empty_batch :
  (forall ui answer catalog feed tok cid (w : world Seller.event),
      exists h new,
        Seller.main ui answer catalog feed tok cid w
        = (Ret tt, World h (log w ++ new))
        /\ Forall (fun e => match e with
                            | Seller.Stocks_request _ _ b => b <> []
                            | Seller.Prices_request _ _ b => b <> []
                            | Seller.Print _ _ => True
                            end) new)
  /\ (forall ui answer catalog feed utcnow tok fbs dbs wf wd (w : world Market.event),
         exists o h new,
           Market.main ui answer catalog feed utcnow tok fbs dbs wf wd w
           = (o, World h (log w ++ new))
           /\ Forall (fun e => match e with
                               | Market.Stocks_request _ _ b => b <> []
                               | Market.Prices_request _ _ b => b <> []
                               | Market.Print _ _ => True
                               end) new).
Proof.
  split.
  - intros ui answer catalog feed tok cid w.
    destruct (seller_main_log ui answer catalog feed tok cid w)
      as (h & stocks & prices & k1 & k2 & tail & Hrun & _ & Htail).
    eexists. eexists. split; [exact Hrun|].
    apply List.Forall_app. split; [|apply List.Forall_app; split].
    + eapply List.Forall_impl;
        [|apply (sent_in_chunks_nonempty 100 (Seller.Stocks_request cid tok));
          [lia|apply sent_in_chunks_take]].
      intros e (b & -> & Hb). exact Hb.
    + eapply List.Forall_impl;
        [|apply (sent_in_chunks_nonempty 900 (Seller.Prices_request cid tok));
          [lia|apply sent_in_chunks_take]].
      intros e (b & -> & Hb). exact Hb.
    + destruct Htail as [->|(error & text & ->)]; repeat constructor.
  - intros ui answer catalog feed utcnow tok fbs dbs wf wd w.
    destruct (market_main_log ui answer catalog feed utcnow tok fbs dbs wf wd w)
      as (o & h & sent1 & sent2 & tail & Hrun & H1 & H2 & Htail).
    eexists. eexists. eexists. split; [exact Hrun|].
    apply List.Forall_app. split; [|apply List.Forall_app; split].
    + eapply List.Forall_impl;
        [|apply (sent_in_chunks_nonempty 2000 (Market.Stocks_request fbs tok));
          [lia|exact H1]].
      intros e (b & -> & Hb). exact Hb.
    + eapply List.Forall_impl;
        [|apply (sent_in_chunks_nonempty 2000 (Market.Stocks_request dbs tok));
          [lia|exact H2]].
      intros e (b & -> & Hb). exact Hb.
    + destruct Htail as [->|(error & text & ->)]; repeat constructor.
Qed.

(** ** [price_conversion] *)

Lemma digit_only_no_dot r : digit_only r -> before_first_dot r = r.
Proof.
  unfold before_first_dot. induction r as [|c t IH]; [reflexivity|].
  rewrite digit_only_cons. intros [Hc Ht]. rewrite index_dot_cons.
  destruct (Ascii.eqb_spec c ".") as [->|_]; [discriminate|].
  specialize (IH Ht). destruct (index 0 "." t) as [n|]; [|reflexivity].
  cbn [substring]. now rewrite IH.
Qed.

Lemma digit_only_digits_of r : digit_only r -> digits_of r = r.
Proof.
  unfold digits_of. induction r as [|c t IH]; [reflexivity|].
  rewrite digit_only_cons. intros [Hc Ht]. simpl. rewrite Hc. simpl.
  now rewrite IH.
Qed.

(** [price_conversion] is idempotent: applied to a price it has already
    converted, it returns that price. *)
Theorem price_conversion_idempotent (s r : string) :
  Seller.price_conversion (PyStr s) = Ret r ->
  Seller.price_conversion (PyStr r) = Ret r.
Proof.
  rewrite price_conversion_of_text. intros [= <-].
  rewrite price_conversion_of_text.
  pose proof (digits_of_digit_only (before_first_dot s)) as Hd.
  now rewrite (digit_only_no_dot _ Hd), (digit_only_digits_of _ Hd).
Qed.

Lemma price_conversion_idempotent_witness :
  Seller.price_conversion (PyStr "17990") = Ret "17990".
Proof.
  apply (price_conversion_idempotent "17'990.00 руб." "17990"). reflexivity.
Defined.

(** ** The reconcilers at the edges *)

Lemma traverse_app {A B} (f : A -> outcome B) (l1 l2 : list A) :
  traverse f (l1 ++ l2)
  = (ys1 <~ traverse f l1 ;; ys2 <~ traverse f l2 ;; Ret (ys1 ++ ys2)).
Proof.
  induction l1 as [|x t IH]; simpl.
  - now destruct (traverse f l2).
  - destruct (f x) as [y|e]; [|reflexivity]. simpl. rewrite IH.
    destruct (traverse f t); [|reflexivity]. simpl.
    now destruct (traverse f l2).
Qed.

Lemma covered_app ids rows1 rows2 :
  covered ids (rows1 ++ rows2) = covered ids rows1 ++ covered ids rows2.
Proof. apply List.filter_app. Qed.

(** A price cell that is no text (the key ["Цена"] missing, a number)
    makes [price_conversion] raise [AttributeError]; in [create_prices]
    the first row of the catalog with such a cell ends the run with that
    error, and the world is left as it was. *)
Theorem create_prices_needs_text_price (rows : list row) (ids : list string)
    (l : loc) (w : world Seller.event) (pre : list row) (watch : row)
    (post : list row) :
  heap w !! l = Some ids ->
  rows = pre ++ watch :: post ->
  Forall has_text_price (covered ids pre) ->
  In (code watch) ids ->
  price_text watch = None ->
  Seller.price_conversion (get "Цена" watch) = Raise AttributeError
  /\ Seller.create_prices rows l w = (Raise AttributeError, w).
Proof.
  intros Hl -> Hpre Hin Hprice.
  assert (Hconv : Seller.price_conversion (get "Цена" watch) = Raise AttributeError).
  { unfold price_text in Hprice. unfold Seller.price_conversion.
    destruct (get "Цена" watch); [reflexivity..|discriminate]. }
  split; [assumption|].
  rewrite seller_create_prices_traverse, Hl. simpl default.
  rewrite covered_app, traverse_app.
  rewrite (traverse_ret _ seller_price).
  2:{ eapply List.Forall_impl; [|exact Hpre]. apply seller_price_of_text. }
  cbn [obind covered List.filter]. apply py_in_In in Hin. rewrite Hin.
  cbn [traverse]. unfold seller_price_of at 1. now rewrite Hconv.
Qed.

Lemma create_prices_needs_text_price_witness :
  Seller.create_prices
    [feed_row (PyStr "123") (PyStr "5") (PyStr "5'990.00 руб.");
     <["Код" := PyStr "789"]> ∅]
    0%nat (World [["123"; "789"]] [])
  = (Raise AttributeError, World [["123"; "789"]] []).
Proof.
  refine (proj2 (create_prices_needs_text_price
            [feed_row (PyStr "123") (PyStr "5") (PyStr "5'990.00 руб.");
             <["Код" := PyStr "789"]> ∅]
            ["123"; "789"] 0%nat (World [["123"; "789"]] [])
            [feed_row (PyStr "123") (PyStr "5") (PyStr "5'990.00 руб.")]
            (<["Код" := PyStr "789"]> ∅) [] _ _ _ _ _)).
  - reflexivity.
  - reflexivity.
  - apply List.Forall_cons; [eexists; reflexivity|apply List.Forall_nil].
  - right. left. reflexivity.
  - reflexivity.
Defined.

Lemma matched_after_no_catalog : forall rows earlier,
  matched_after earlier [] rows = [].
Proof.
  induction rows as [|watch rest IH]; intros earlier; [reflexivity|].
  cbn [matched_after]. now rewrite IH.
Qed.

Lemma covered_no_catalog rows : covered [] rows = [].
Proof. induction rows as [|watch rest IH]; [reflexivity|exact IH]. Qed.

(** Empty inputs raise nothing.  On an empty feed [create_stocks] returns
    a record with quantity 0 for every catalog entry and [create_prices]
    returns no record; on an empty catalog both return no record, whatever
    the feed holds, since no quantity and no price is ever read.  The
    catalog list and the log are left as they were. *)
Theorem reconcilers_on_empty_inputs ui :
  (forall ids l (w : world Seller.event),
      heap w !! l = Some ids ->
      Seller.create_stocks ui [] l w
      = (Ret (map (fun x => Seller.Stock.Make x 0) ids), w)
      /\ Seller.create_prices [] l w = (Ret [], w))
  /\ (forall rows l (w : world Seller.event),
         heap w !! l = Some [] ->
         Seller.create_stocks ui rows l w = (Ret [], w)
         /\ Seller.create_prices rows l w = (Ret [], w)).
Proof.
  split.
  - intros ids l w Hl. split; [|reflexivity].
    rewrite (seller_create_stocks_ret ui [] ids l w Hl) by constructor.
    unfold seller_stocks, unmatched. simpl.
    now rewrite unmatched_after_nil, world_insert_same.
  - intros rows l w Hl. split.
    + rewrite (seller_create_stocks_ret ui rows [] l w Hl).
      * unfold seller_stocks, matched, unmatched.
        rewrite matched_after_no_catalog. simpl.
        now rewrite world_insert_same.
      * unfold matched. rewrite matched_after_no_catalog. constructor.
    + rewrite seller_create_prices_traverse, Hl. simpl default.
      now rewrite covered_no_catalog.
Qed.

Lemma reconcilers_on_empty_inputs_witness :
  Seller.create_stocks (fun _ => None)
    [feed_row (PyStr "123") (PyStr "abc") PyNone] 0%nat (World [[]] [])
  = (Ret [], World [[]] [])
  /\ Seller.create_stocks (fun _ => None) [] 0%nat (World [["123"; "789"]] [])
     = (Ret [Seller.Stock.Make "123" 0; Seller.Stock.Make "789" 0],
        World [["123"; "789"]] []).
Proof.
  destruct (reconcilers_on_empty_inputs (fun _ => None)) as [Hfeed Hcat].
  split.
  - refine (proj1 (Hcat [feed_row (PyStr "123") (PyStr "abc") PyNone]
                        0%nat (World [[]] []) _)). reflexivity.
  - refine (proj1 (Hfeed ["123"; "789"] 0%nat (World [["123"; "789"]] []) _)).
    reflexivity.
Defined.

(** [create_prices] does not consume the catalog, so it works row by row:
    the records of a feed put together from two feeds are the records of
    the first followed by the records of the second. *)
Theorem create_prices_of_appended_feeds (rows1 rows2 : list row) (l : loc)
    (w : world Seller.event) (prices1 prices2 : list Seller.Price.t) :
  Seller.create_prices rows1 l w = (Ret prices1, w) ->
  Seller.create_prices rows2 l w = (Ret prices2, w) ->
  Seller.create_prices (rows1 ++ rows2) l w = (Ret (prices1 ++ prices2), w).
Proof.
  rewrite !seller_create_prices_traverse, covered_app, traverse_app.
  intros [= ->] [= ->]. reflexivity.
Qed.

Lemma create_prices_of_appended_feeds_witness :
  Seller.create_prices
    ([feed_row (PyStr "123") (PyStr "5") (PyStr "5'990.00 руб.")]
     ++ [feed_row (PyStr "123") (PyStr "7") (PyStr "6'100.00 руб.")])
    0%nat (World [["123"; "789"]] [])
  = (Ret ([Seller.Price.Make "UNKNOWN" "RUB" "123" "0" "5990"]
          ++ [Seller.Price.Make "UNKNOWN" "RUB" "123" "0" "6100"]),
     World [["123"; "789"]] []).
Proof.
  apply create_prices_of_appended_feeds; reflexivity.
Defined.

(** ** Integer cells *)

Lemma to_int_not_nil z : Z.to_int z <> Decimal.Pos Decimal.Nil
                         /\ Z.to_int z <> Decimal.Neg Decimal.Nil.
Proof.
  destruct z as [|p|p]; simpl; split; try discriminate;
    intros [= H]; now apply DecimalPos.Unsigned.to_uint_nonnil in H.
Qed.

Lemma str_int_read_back z :
  NilZero.int_of_string (str (PyInt z)) = Some (Z.to_int z).
Proof.
  simpl. destruct (to_int_not_nil z). now apply NilZero.isi.
Qed.

Lemma quantity_of_integer_cell ui (watch : row) (z : Z) :
  get "Количество" watch = PyInt z ->
  quantity ui watch = Ret (if z =? 1 then 0 else z).
Proof.
  intros Hcell. unfold quantity. rewrite Hcell.
  pose proof (str_int_read_back z) as Hback.
  destruct (String.eqb_spec (str (PyInt z)) ">10") as [H10|_].
  { rewrite H10 in Hback. discriminate. }
  destruct (String.eqb_spec (str (PyInt z)) "1") as [H1|H1].
  - rewrite H1 in Hback. injection Hback as Hback.
    assert (z = 1) by (apply DecimalZ.to_int_inj; now rewrite <- Hback).
    subst z. reflexivity.
  - destruct (Z.eqb_spec z 1) as [->|_]; [now elim H1|reflexivity].
Qed.

(** On a feed whose quantity cells all hold integers [create_stocks]
    never raises, and the record of a matched row carries the integer of
    its cell, but for the integer 1, which gives 0 like the text ["1"];
    the entries left get 0. *)
Theorem create_stocks_of_integer_cells ui (rows : list row) (ids : list string)
    (l : loc) (w : world Seller.event) (cell : row -> Z) :
  heap w !! l = Some ids ->
  (forall watch, In watch rows -> get "Количество" watch = PyInt (cell watch)) ->
  Seller.create_stocks ui rows l w
  = (Ret (map (fun watch =>
                 Seller.Stock.Make (code watch)
                                   (if cell watch =? 1 then 0 else cell watch))
              (matched ids rows)
          ++ map (fun x => Seller.Stock.Make x 0) (unmatched rows ids)),
     World (<[l := unmatched rows ids]> (heap w)) (log w)).
Proof.
  intros Hl Hcells.
  assert (Hq : forall watch, In watch (matched ids rows) ->
                 quantity ui watch
                 = Ret (if cell watch =? 1 then 0 else cell watch)).
  { intros watch Hin. apply quantity_of_integer_cell, Hcells.
    now apply matched_after_incl in Hin. }
  rewrite (seller_create_stocks_ret ui rows ids l w Hl).
  - unfold seller_stocks. f_equal. f_equal. f_equal.
    apply List.map_ext_in. intros watch Hin.
    unfold quantity_value. now rewrite (Hq watch Hin).
  - apply List.Forall_forall. intros watch Hin. now rewrite (Hq watch Hin).
Qed.

Lemma create_stocks_of_integer_cells_witness :
  Seller.create_stocks (fun _ => None)
    [feed_row (PyInt 68122) (PyInt 1) PyNone;
     feed_row (PyInt 68123) (PyInt 8) PyNone]
    0%nat (World [["68122"; "68123"; "789"]] [])
  = (Ret [Seller.Stock.Make "68122" 0; Seller.Stock.Make "68123" 8;
          Seller.Stock.Make "789" 0],
     World [["789"]] []).
Proof.
  refine (create_stocks_of_integer_cells (fun _ => None)
            [feed_row (PyInt 68122) (PyInt 1) PyNone;
             feed_row (PyInt 68123) (PyInt 8) PyNone]
            ["68122"; "68123"; "789"] 0%nat
            (World [["68122"; "68123"; "789"]] [])
            (fun watch => match get "Количество" watch with
                          | PyInt z => z
                          | _ => 0
                          end) _ _).
  - reflexivity.
  - intros watch [<-|[<-|[]]]; reflexivity.
Defined.

(** ** The stock records of the second marketplace *)



(** ** What the two [main] let through *)

(** [main] of the first marketplace never raises: whatever the
    marketplace, the feed and the rows do, it returns.  [main] of the
    second marketplace calls [download_stock] before its [try]: an error
    of the download leaves [main] as it is, nothing being printed or sent;
    once the feed is there it never raises either. *)
Theorem mains_and_uncaught_errors :
  (forall ui answer catalog feed tok cid (w : world Seller.event),
      fst (Seller.main ui answer catalog feed tok cid w) = Ret tt)
  /\ (forall ui answer catalog utcnow tok fbs dbs wf wd e (w : world Market.event),
         Market.main ui answer catalog (Raise e) utcnow tok fbs dbs wf wd w
         = (Raise e, w))
  /\ (forall ui answer catalog utcnow tok fbs dbs wf wd rows (w : world Market.event),
         fst (Market.main ui answer catalog (Ret rows) utcnow tok fbs dbs wf wd w)
         = Ret tt).
Proof.
  split.
  { intros ui answer catalog feed tok cid w.
    destruct (seller_main_log ui answer catalog feed tok cid w)
      as (h & stocks & prices & k1 & k2 & tail & Hrun & _).
    now rewrite Hrun. }
  split; [reflexivity|].
  intros ui answer catalog utcnow tok fbs dbs wf wd rows w.
  unfold Market.main, Market.download_stock, try_except.
  unfold bind at 1, lift at 1.
  destruct (Market.main_try ui answer catalog utcnow rows tok fbs dbs wf wd w)
    as [[[]|e] w']; [reflexivity|].
  destruct (market_main_except_run e w') as (error & text & Hexc & _).
  now rewrite Hexc.
Qed.

(** ** Uploads from end to end *)

Section Upload_runs.

Context {E : Type}.
Variable answer : list E -> option exn.

Lemma for_each_request_all {X} (mk : list X -> E) :
  (forall lg, answer lg = None) ->
  forall batches (w : world E),
    for_each batches (fun b => request answer (mk b)) w
    = (Ret tt, World (heap w) (log w ++ map mk batches)).
Proof.
  intros Hok. induction batches as [|b rest IH]; intros w.
  - simpl. unfold ret. now rewrite List.app_nil_r, world_eta.
  - cbn [for_each]. rewrite (bind_run _ _ _ _ _ (request_run _ _ _)), Hok.
    rewrite IH. simpl. now rewrite <- List.app_assoc.
Qed.


End Upload_runs.

Lemma new_list_insert (h : list (list string)) ids ids' :
  <[length h := ids']> (h ++ [ids]) = h ++ [ids'].
Proof.
  rewrite insert_app_r_alt by lia. now rewrite Nat.sub_diag.
Qed.

(** When the marketplace accepts every request and no matched row has a
    malformed quantity, [upload_stocks] sends every reconciled record
    exactly once, in order, in batches of 100, and returns the records
    with a quantity other than 0 together with all the records. *)
Theorem upload_stocks_sends_every_record_once ui answer catalog
    (rows : list row) (cid tok : string) (ids : list string)
    (w : world Seller.event) :
  catalog cid tok = Ret ids ->
  Forall (fun watch => is_ret (quantity ui watch) = true) (matched ids rows) ->
  (forall lg, answer lg = None) ->
  await (Seller.upload_stocks ui answer catalog rows cid tok) w
  = (Ret (List.filter (fun s => negb (Seller.Stock.stock s =? 0))
                      (seller_stocks ui rows ids),
          seller_stocks ui rows ids),
     World (heap w ++ [unmatched rows ids])
           (log w ++ map (Seller.Stocks_request cid tok)
                         (chunks_of 100 (seller_stocks ui rows ids))))
  /\ concat (chunks_of 100 (seller_stocks ui rows ids)) = seller_stocks ui rows ids.
Proof.
  intros Hcat Hok Hanswer. split.
  - unfold await, Seller.upload_stocks.
    run_bind (seller_get_offer_ids_ret catalog cid tok ids w Hcat).
    run_bind (seller_create_stocks_ret ui rows ids (length (heap w))
                (World (heap w ++ [ids]) (log w)) (new_list_lookup _ _) Hok).
    unfold bind at 1, lift at 1. rewrite divide_chunks_of by lia.
    cbv beta iota. cbn [heap log]. unfold Seller.update_stocks.
    run_bind (for_each_request_all answer (Seller.Stocks_request cid tok)
                Hanswer (chunks_of 100 (seller_stocks ui rows ids))
                (World (<[length (heap w) := unmatched rows ids]> (heap w ++ [ids]))
                       (log w))).
    unfold ret. simpl. now rewrite new_list_insert.
  - unfold chunks_of. apply concat_chunks.
    apply (chunk_count_bounds _ 100). lia.
Qed.

Lemma upload_stocks_sends_every_record_once_witness :
  await (Seller.upload_stocks (fun _ => None) (fun _ => None)
           (fun _ _ => Ret ["123"; "789"])
           [feed_row (PyStr "123") (PyStr "5") PyNone] "client" "token")
        (World [] [])
  = (Ret ([Seller.Stock.Make "123" 5],
          [Seller.Stock.Make "123" 5; Seller.Stock.Make "789" 0]),
     World [["789"]]
           [Seller.Stocks_request "client" "token"
              [Seller.Stock.Make "123" 5; Seller.Stock.Make "789" 0]]).
Proof.
  refine (proj1 (upload_stocks_sends_every_record_once (fun _ => None)
            (fun _ => None) (fun _ _ => Ret ["123"; "789"])
            [feed_row (PyStr "123") (PyStr "5") PyNone] "client" "token"
            ["123"; "789"] (World [] []) _ _ _)).
  - reflexivity.
  - apply List.Forall_cons; [reflexivity|apply List.Forall_nil].
  - reflexivity.
Defined.

(** [upload_prices] fetches a catalog of its own, so, unlike the price
    step of [main], it does send the prices: when the marketplace accepts
    every request and the rows of the catalog carry text prices, it sends
    one record for each of these rows, in feed order, in batches of 1000,
    and returns them. *)
Theorem upload_prices_sends_covered_rows answer catalog (rows : list row)
    (cid tok : string) (ids : list string) (w : world Seller.event) :
  catalog cid tok = Ret ids ->
  Forall has_text_price (covered ids rows) ->
  (forall lg, answer lg = None) ->
  await (Seller.upload_prices answer catalog rows cid tok) w
  = (Ret (map seller_price (covered ids rows)),
     World (heap w ++ [ids])
           (log w ++ map (Seller.Prices_request cid tok)
                         (chunks_of 1000 (map seller_price (covered ids rows))))).
Proof.
  intros Hcat Hok Hanswer. unfold await, Seller.upload_prices.
  run_bind (seller_get_offer_ids_ret catalog cid tok ids w Hcat).
  run_bind (seller_create_prices_ret rows ids (length (heap w))
              (World (heap w ++ [ids]) (log w)) (new_list_lookup _ _) Hok).
  unfold bind at 1, lift at 1. rewrite divide_chunks_of by lia.
  cbv beta iota. cbn [heap log]. unfold Seller.update_price.
  run_bind (for_each_request_all answer (Seller.Prices_request cid tok)
              Hanswer (chunks_of 1000 (map seller_price (covered ids rows)))
              (World (heap w ++ [ids]) (log w))).
  reflexivity.
Qed.

Lemma upload_prices_sends_covered_rows_witness :
  await (Seller.upload_prices (fun _ => None) (fun _ _ => Ret ["123"; "789"])
           [feed_row (PyStr "123") (PyStr "5") (PyStr "5'990.00 руб.")]
           "client" "token")
        (World [] [])
  = (Ret [Seller.Price.Make "UNKNOWN" "RUB" "123" "0" "5990"],
     World [["123"; "789"]]
           [Seller.Prices_request "client" "token"
              [Seller.Price.Make "UNKNOWN" "RUB" "123" "0" "5990"]]).
Proof.
  refine (upload_prices_sends_covered_rows (fun _ => None)
            (fun _ _ => Ret ["123"; "789"])
            [feed_row (PyStr "123") (PyStr "5") (PyStr "5'990.00 руб.")]
            "client" "token" ["123"; "789"] (World [] []) _ _ _).
  - reflexivity.
  - apply List.Forall_cons; [eexists; reflexivity|apply List.Forall_nil].
  - reflexivity.
Defined.



(** ** The catalog fetchers *)

Lemma pages_up_to_succ served k :
  pages_up_to served (S k) = pages_up_to served k ++ served (S k).
Proof.
  unfold pages_up_to. rewrite (List.seq_S (S k)), List.map_app, List.concat_app.
  simpl. now rewrite List.app_nil_r.
Qed.

Lemma pages_up_to_zero served : pages_up_to served 0 = served 0%nat.
Proof. unfold pages_up_to. simpl. apply List.app_nil_r. Qed.

Section Seller_paging.

Variable post : nat -> json -> outcome json.
Variable served : nat -> list json.
Variables total cursor : nat -> json.

(** What came before round [n]. *)
Let before (n : nat) : list json :=
  match n with
  | O => []
  | S m => pages_up_to served m
  end.

Lemma before_round n : before n ++ served n = pages_up_to served n.
Proof.
  destruct n; simpl; [now rewrite pages_up_to_zero|now rewrite pages_up_to_succ].
Qed.

Lemma seller_collect_step fuel n :
  post n (cursor n) = Ret (seller_page (served n) (total n) (cursor (S n))) ->
  Seller_catalog.collect post (S fuel) n (cursor n) (before n)
  = if equals_int (total n) (Z.of_nat (length (pages_up_to served n)))
    then Some (Ret (pages_up_to served n))
    else Seller_catalog.collect post fuel (S n) (cursor (S n)) (before (S n)).
Proof.
  intros Hpost. cbn [Seller_catalog.collect].
  unfold Seller_catalog.get_product_list. rewrite Hpost. simpl.
  now rewrite before_round.
Qed.

Lemma seller_collect_hits k : forall d n fuel,
  (n + d = k)%nat -> (d < fuel)%nat ->
  (forall m, (m <= k)%nat ->
     post m (cursor m) = Ret (seller_page (served m) (total m) (cursor (S m)))) ->
  (forall m, (m < k)%nat ->
     equals_int (total m) (Z.of_nat (length (pages_up_to served m))) = false) ->
  equals_int (total k) (Z.of_nat (length (pages_up_to served k))) = true ->
  Seller_catalog.collect post fuel n (cursor n) (before n)
  = Some (Ret (pages_up_to served k)).
Proof.
  induction d as [|d IH]; intros n fuel Hn Hfuel Hserve Hmiss Hhit;
    (destruct fuel as [|fuel]; [lia|]);
    rewrite seller_collect_step by (apply Hserve; lia).
  - replace n with k by lia. now rewrite Hhit.
  - rewrite (Hmiss n) by lia. apply IH; [lia|lia|assumption..].
Qed.

Lemma seller_collect_fails k e : forall d n fuel,
  (n + d = k)%nat -> (d < fuel)%nat ->
  (forall m, (m < k)%nat ->
     post m (cursor m) = Ret (seller_page (served m) (total m) (cursor (S m)))) ->
  (forall m, (m < k)%nat ->
     equals_int (total m) (Z.of_nat (length (pages_up_to served m))) = false) ->
  post k (cursor k) = Raise e ->
  Seller_catalog.collect post fuel n (cursor n) (before n) = Some (Raise e).
Proof.
  induction d as [|d IH]; intros n fuel Hn Hfuel Hserve Hmiss Hfail;
    (destruct fuel as [|fuel]; [lia|]).
  - replace n with k by lia. cbn [Seller_catalog.collect].
    unfold Seller_catalog.get_product_list. now rewrite Hfail.
  - rewrite seller_collect_step by (apply Hserve; lia).
    rewrite (Hmiss n) by lia. apply IH; [lia|lia|assumption..].
Qed.

Lemma seller_collect_runs_on : forall fuel n,
  (forall m, post m (cursor m)
             = Ret (seller_page (served m) (total m) (cursor (S m)))) ->
  (forall m, equals_int (total m) (Z.of_nat (length (pages_up_to served m))) = false) ->
  Seller_catalog.collect post fuel n (cursor n) (before n) = None.
Proof.
  induction fuel as [|fuel IH]; intros n Hserve Hmiss; [reflexivity|].
  rewrite seller_collect_step by apply Hserve. rewrite Hmiss. now apply IH.
Qed.

End Seller_paging.

(** [get_offer_ids] of the first marketplace asks for page after page,
    each with the [last_id] of the page before (the empty text first), and
    stops at the first page [k] on which the reported total equals the
    number of items received so far; it then returns the [offer_id] of
    every item of the pages 0 to [k], in the order received. *)
Theorem seller_get_offer_ids_collects_pages (post : nat -> json -> outcome json)
    (served : nat -> list json) (total cursor : nat -> json) (k fuel : nat) :
  cursor 0%nat = JStr "" ->
  (forall n, (n <= k)%nat ->
     post n (cursor n) = Ret (seller_page (served n) (total n) (cursor (S n)))) ->
  (forall n, (n < k)%nat ->
     equals_int (total n) (Z.of_nat (length (pages_up_to served n))) = false) ->
  equals_int (total k) (Z.of_nat (length (pages_up_to served k))) = true ->
  (k < fuel)%nat ->
  Seller_catalog.get_offer_ids post fuel
  = Some (traverse (jget "offer_id") (pages_up_to served k)).
Proof.
  intros Hstart Hserve Hmiss Hhit Hfuel. unfold Seller_catalog.get_offer_ids.
  rewrite <- Hstart.
  now rewrite (seller_collect_hits post served total cursor k k 0%nat fuel).
Qed.

Lemma seller_get_offer_ids_collects_pages_witness :
  Seller_catalog.get_offer_ids
    (fun n _ =>
       Ret (seller_page [JDict [("product_id", JInt (Z.of_nat n));
                                ("offer_id", JStr (if Nat.eqb n 0 then "136748" else "71405"))]]
                        (JInt 2)
                        (JStr (if Nat.eqb n 0 then "" else "bnVsbA=="))))
    5
  = Some (Ret [JStr "136748"; JStr "71405"]).
Proof.
  refine (seller_get_offer_ids_collects_pages _
            (fun n => [JDict [("product_id", JInt (Z.of_nat n));
                              ("offer_id", JStr (if Nat.eqb n 0 then "136748" else "71405"))]])
            (fun _ => JInt 2)
            (fun n => match n with O => JStr "" | S m => JStr (if Nat.eqb m 0 then "" else "bnVsbA==") end)
            1 5 _ _ _ _ _).
  - reflexivity.
  - intros n Hn. destruct n as [|[|n]]; [reflexivity|reflexivity|lia].
  - intros n Hn. destruct n as [|n]; [reflexivity|lia].
  - reflexivity.
  - lia.
Defined.

(** When on no page the reported total equals the number of items
    received so far (the pages overshoot it, or never reach it),
    [get_offer_ids] of the first marketplace asks on for ever: it has no
    result, whatever the number of rounds. *)
Theorem seller_get_offer_ids_never_returns (post : nat -> json -> outcome json)
    (served : nat -> list json) (total cursor : nat -> json) :
  cursor 0%nat = JStr "" ->
  (forall n, post n (cursor n)
             = Ret (seller_page (served n) (total n) (cursor (S n)))) ->
  (forall n, equals_int (total n) (Z.of_nat (length (pages_up_to served n))) = false) ->
  forall fuel, Seller_catalog.get_offer_ids post fuel = None.
Proof.
  intros Hstart Hserve Hmiss fuel. unfold Seller_catalog.get_offer_ids.
  rewrite <- Hstart.
  now rewrite (seller_collect_runs_on post served total cursor fuel 0%nat).
Qed.

Lemma seller_get_offer_ids_never_returns_witness :
  Seller_catalog.get_offer_ids
    (fun _ _ => Ret (seller_page [JDict [("offer_id", JStr "1")]]
                                 (JInt 0) (JStr "")))
    1000
  = None.
Proof.
  refine (seller_get_offer_ids_never_returns _
            (fun _ => [JDict [("offer_id", JStr "1")]])
            (fun _ => JInt 0) (fun _ => JStr "") _ _ _ 1000%nat).
  - reflexivity.
  - reflexivity.
  - intros n. unfold pages_up_to, equals_int. cbn [seq map concat app length].
    apply Z.eqb_neq. lia.
Defined.

(** An exception of a request (time-out, connection, status) leaves
    [get_offer_ids] of the first marketplace as it is: the items of the
    pages received before are dropped, no list is returned. *)
Theorem seller_get_offer_ids_propagates (post : nat -> json -> outcome json)
    (served : nat -> list json) (total cursor : nat -> json) (k fuel : nat)
    (e : exn) :
  cursor 0%nat = JStr "" ->
  (forall n, (n < k)%nat ->
     post n (cursor n) = Ret (seller_page (served n) (total n) (cursor (S n)))) ->
  (forall n, (n < k)%nat ->
     equals_int (total n) (Z.of_nat (length (pages_up_to served n))) = false) ->
  post k (cursor k) = Raise e ->
  (k < fuel)%nat ->
  Seller_catalog.get_offer_ids post fuel = Some (Raise e).
Proof.
  intros Hstart Hserve Hmiss Hfail Hfuel. unfold Seller_catalog.get_offer_ids.
  rewrite <- Hstart.
  now rewrite (seller_collect_fails post served total cursor k e k 0%nat fuel).
Qed.

Lemma seller_get_offer_ids_propagates_witness :
  Seller_catalog.get_offer_ids
    (fun n _ => match n with
                | O => Ret (seller_page [JDict [("offer_id", JStr "1")]]
                                        (JInt 2) (JStr "a"))
                | _ => Raise ReadTimeout
                end)
    3
  = Some (Raise ReadTimeout).
Proof.
  refine (seller_get_offer_ids_propagates _
            (fun _ => [JDict [("offer_id", JStr "1")]])
            (fun _ => JInt 2)
            (fun n => match n with O => JStr "" | S _ => JStr "a" end)
            1 3 ReadTimeout _ _ _ _ _).
  - reflexivity.
  - intros n Hn. destruct n as [|n]; [reflexivity|lia].
  - intros n Hn. destruct n as [|n]; [reflexivity|lia].
  - reflexivity.
  - lia.
Defined.

Section Market_paging.

Variable fetch : nat -> json -> outcome json.
Variable served : nat -> list json.
Variable cursor : nat -> json.

Let before (n : nat) : list json :=
  match n with
  | O => []
  | S m => pages_up_to served m
  end.

Lemma market_collect_step fuel n :
  fetch n (cursor n) = Ret (market_page (served n) (cursor (S n))) ->
  Market_catalog.collect fetch (S fuel) n (cursor n) (before n)
  = if falsy (cursor (S n))
    then Some (Ret (pages_up_to served n))
    else Market_catalog.collect fetch fuel (S n) (cursor (S n)) (before (S n)).
Proof.
  intros Hfetch. cbn [Market_catalog.collect].
  unfold Market_catalog.get_product_list. rewrite Hfetch. simpl.
  destruct n; simpl;
    [now rewrite pages_up_to_zero|now rewrite pages_up_to_succ].
Qed.


Lemma market_collect_no_paging k e : forall d n fuel,
  (n + d = k)%nat -> (d < fuel)%nat ->
  (forall m, (m < k)%nat ->
     fetch m (cursor m) = Ret (market_page (served m) (cursor (S m)))) ->
  (forall m, (m < k)%nat -> falsy (cursor (S m)) = false) ->
  (some_prod <~ Market_catalog.get_product_list fetch k (cursor k) ;;
   entries <~ jget "offerMappingEntries" some_prod ;;
   more <~ iterate entries ;;
   paging <~ jget "paging" some_prod ;;
   jget "nextPageToken" paging) = Raise e ->
  Market_catalog.collect fetch fuel n (cursor n) (before n) = Some (Raise e).
Proof.
  induction d as [|d IH]; intros n fuel Hn Hfuel Hserve Hmore Hbad;
    (destruct fuel as [|fuel]; [lia|]).
  - replace n with k by lia. cbn [Market_catalog.collect].
    destruct (Market_catalog.get_product_list fetch k (cursor k)) as [some_prod|];
      simpl in *; [|congruence].
    destruct (jget "offerMappingEntries" some_prod) as [entries|];
      simpl in *; [|congruence].
    destruct (iterate entries) as [more|]; simpl in *; [|congruence].
    destruct (jget "paging" some_prod) as [paging|]; simpl in *; [|congruence].
    destruct (jget "nextPageToken" paging); simpl in *; congruence.
  - rewrite market_collect_step by (apply Hserve; lia).
    rewrite (Hmore n) by lia. apply IH; [lia|lia|assumption..].
Qed.

End Market_paging.



(** A page of the second marketplace whose result has no ["paging"]
    object makes [get_offer_ids] raise [AttributeError] (the token is asked
    of [None]), even when the page is the last one and its entries have
    been received. *)
Theorem market_get_offer_ids_needs_paging (fetch : nat -> json -> outcome json)
    (served : nat -> list json) (cursor : nat -> json) (k fuel : nat)
    (entries : list json) :
  cursor 0%nat = JStr "" ->
  (forall n, (n < k)%nat ->
     fetch n (cursor n) = Ret (market_page (served n) (cursor (S n)))) ->
  (forall n, (n < k)%nat -> falsy (cursor (S n)) = false) ->
  fetch k (cursor k)
  = Ret (JDict [("result", JDict [("offerMappingEntries", JList entries)])]) ->
  (k < fuel)%nat ->
  Market_catalog.get_offer_ids fetch fuel = Some (Raise AttributeError).
Proof.
  intros Hstart Hserve Hmore Hbad Hfuel. unfold Market_catalog.get_offer_ids.
  rewrite <- Hstart.
  rewrite (market_collect_no_paging fetch served cursor k AttributeError
             k 0%nat fuel); try assumption; try lia; [reflexivity|].
  unfold Market_catalog.get_product_list. now rewrite Hbad.
Qed.

Lemma market_get_offer_ids_needs_paging_witness :
  Market_catalog.get_offer_ids
    (fun _ _ =>
       Ret (JDict [("result",
                    JDict [("offerMappingEntries",
                            JList [JDict [("offer", JDict [("shopSku", JStr "71405")])]])])]))
    3
  = Some (Raise AttributeError).
Proof.
  refine (market_get_offer_ids_needs_paging _ (fun _ => []) (fun _ => JStr "")
            0 3 [JDict [("offer", JDict [("shopSku", JStr "71405")])]]
            _ _ _ _ _).
  - reflexivity.
  - intros n Hn. lia.
  - intros n Hn. lia.
  - reflexivity.
  - lia.
Defined.
